(** * Trace2 instrumentation of git-bundle-server: a shallow embedding

    The development follows [internal/log/trace2.go] (the event recorder
    facade and the per-context state) and [internal/log/tr2-perf-encoder.go]
    (the performance-table encoder, in its two revisions), and states the
    properties of the specification over them.

    Conventions.
    - Go [int] is a 64-bit and [int32] a 32-bit two's complement integer; both
      are carried by [Z] and every arithmetic step re-normalises the result.
    - Go strings are byte strings: [String.string]; [len] is [String.length].
    - A [context.Context] is the immutable chain built by
      [context.WithValue]; a lookup returns the innermost binding of a key.
    - The clock, the random session identifier and the call stack are inputs
      ([Sys]) of each operation of the facade.
    - [t.logger] is the zap logger.  The facade is described by the records
      it hands to the logger, in order; [Zap] then describes how a core
      renders such a record through its encoder into its sink. *)

From Stdlib Require Import ZArith List String Ascii Lia Bool Permutation Sorted.
From Stdlib Require Import DecimalString FinFun.
From stdpp Require Import base gmap strings.
Import ListNotations.

Set Default Proof Using "Type".

(** ** Machine integers *)

Module GoInt.

Definition wrap (bits : Z) (z : Z) : Z :=
  ((z + 2 ^ (bits - 1)) mod 2 ^ bits - 2 ^ (bits - 1))%Z.

Definition int (z : Z) : Z := wrap 64 z.
Definition int32 (z : Z) : Z := wrap 32 z.

Definition MaxInt : Z := (2 ^ 63 - 1)%Z.
Definition MaxInt32 : Z := (2 ^ 31 - 1)%Z.
Definition MinInt32 : Z := (- 2 ^ 31)%Z.

End GoInt.

(** ** Errors and the LoggedError marker *)

(** Modelled from the spec: the declaration of the type [loggedError] is not
    part of the sources at hand (only its uses in trace2.go are).  The
    specification describes it as a marker that wraps an error value to
    record "already traced", implemented as a tagged variant (wrapped versus
    raw) from which the original error can be recovered.  An error value is
    therefore its message together with that tag; the conversion
    [loggedError(err)] sets the tag and the type assertion
    [err.(loggedError)] reads it. *)
Inductive error : Type :=
| rawError (msg : string)
| markedError (msg : string).

Definition error_Error (e : error) : string :=
  match e with rawError m | markedError m => m end.

Definition loggedError (e : error) : error := markedError (error_Error e).

Definition isLoggedError (e : error) : bool :=
  match e with markedError _ => true | rawError _ => false end.

Definition unwrapLogged (e : error) : error := rawError (error_Error e).

(** An argument of a variadic [a ...any]: an error value or anything else
    (nil, a string, a number).  Where Go passes an [error] that may be the
    nil interface, the model passes an [option error]. *)
Inductive any : Type :=
| anyNil
| anyError (e : error)
| anyString (s : string)
| anyInt (z : Z).

Definition anyIsLoggedError (a : any) : bool :=
  match a with anyError e => isLoggedError e | _ => false end.

(** ** Contexts *)

Inductive ctxKey : Type := sidId | parentRegionId.

(** Keys of other packages can never be equal to a [ctxKey] (the type is not
    exported); they are told apart by a number. *)
Inductive key : Type :=
| pkgKey (k : ctxKey)
| foreignKey (n : nat).

Record trace2Region : Type := mkRegion { level : Z; tStart : Z }.

Inductive ctxValue : Type :=
| valUUID (u : string)
| valRegion (r : trace2Region)
| valForeign (n : nat).

Inductive Context : Type :=
| Background
| WithValue (parent : Context) (k : key) (v : ctxValue).

Definition ctxKey_eqb (a b : ctxKey) : bool :=
  match a, b with
  | sidId, sidId | parentRegionId, parentRegionId => true
  | _, _ => false
  end.

Definition key_eqb (a b : key) : bool :=
  match a, b with
  | pkgKey x, pkgKey y => ctxKey_eqb x y
  | foreignKey n, foreignKey m => Nat.eqb n m
  | _, _ => false
  end.

(** [ctx.Value(key)]: the innermost binding, [None] for nil. *)
Fixpoint Value (ctx : Context) (k : key) : option ctxValue :=
  match ctx with
  | Background => None
  | WithValue parent k' v => if key_eqb k' k then Some v else Value parent k
  end.

(** The two instances of the generic [getContextValue[T]]: the type
    assertion [valueAny.(T)] fails on a value of another type and leaves the
    zero value of [T]. *)
Definition zeroRegion : trace2Region := mkRegion 0 0.

Definition getContextValue_region (ctx : Context) (k : ctxKey)
  : bool * trace2Region :=
  match Value ctx (pkgKey k) with
  | Some (valRegion r) => (true, r)
  | _ => (false, zeroRegion)
  end.

Definition getContextValue_uuid (ctx : Context) (k : ctxKey)
  : bool * string :=
  match Value ctx (pkgKey k) with
  | Some (valUUID u) => (true, u)
  | _ => (false, EmptyString)
  end.

Definition getOrSetContextValue_uuid (ctx : Context) (k : ctxKey)
    (newValueFunc : string) : Context * string :=
  let '(haveValue, value) := getContextValue_uuid ctx k in
  if haveValue then (ctx, value)
  else (WithValue ctx (pkgKey k) (valUUID newValueFunc), newValueFunc).

(** ** Fields handed to the logger *)

Inductive FieldValue : Type :=
| StringF (s : string)
| IntF (z : Z)
| Int32F (z : Z)
| BoolF (b : bool)
| DurationF (d : Z)
| StringsF (l : list string).

Record Field : Type := mkField { Key : string; Val : FieldValue }.

Definition zap_String k v := mkField k (StringF v).
Definition zap_Int k v := mkField k (IntF v).
Definition zap_Int32 k v := mkField k (Int32F v).
Definition zap_Bool k v := mkField k (BoolF v).
Definition zap_Duration k v := mkField k (DurationF v).
Definition zap_Strings k v := mkField k (StringsF v).

Definition fieldList := list Field.

Inductive Level : Type := DebugLevel | InfoLevel | ErrorLevel.

(** One call of [t.logger.Debug/Info/Error(event, fields...)]. *)
Record LogRecord : Type := mkRecord {
  recLevel : Level;
  recTime : Z;
  recEvent : string;
  recFields : fieldList
}.

Definition tr2Event_Start := "start"%string.
Definition tr2Event_CmdName := "cmd_name"%string.
Definition tr2Event_RegionEnter := "region_enter"%string.
Definition tr2Event_RegionLeave := "region_leave"%string.
Definition tr2Event_ChildStart := "child_start"%string.
Definition tr2Event_ChildReady := "child_ready"%string.
Definition tr2Event_ChildExit := "child_exit"%string.
Definition tr2Event_Error := "error"%string.
Definition tr2Event_Exit := "exit"%string.
Definition tr2Event_AtExit := "atexit"%string.

Definition tr2Field_Sid := "sid"%string.
Definition tr2Field_TAbs := "t_abs"%string.
Definition tr2Field_TRel := "t_rel"%string.
Definition tr2Field_Nesting := "nesting"%string.
Definition tr2Field_Thread := "thread"%string.
Definition tr2Field_File := "file"%string.
Definition tr2Field_Line := "line"%string.
Definition tr2Field_Name := "name"%string.
Definition tr2Field_Argv := "argv"%string.
Definition tr2Field_Code := "code"%string.
Definition tr2Field_Category := "category"%string.
Definition tr2Field_Label := "label"%string.
Definition tr2Field_ChildId := "child_id"%string.
Definition tr2Field_ChildClass := "child_class"%string.
Definition tr2Field_UseShell := "use_shell"%string.
Definition tr2Field_Ready := "ready"%string.
Definition tr2Field_Pid := "pid"%string.
Definition tr2Field_Msg := "msg"%string.
Definition tr2Field_Fmt := "fmt"%string.

(** ** The recorder and its effects *)

(** [logger] holds the records handed to the zap logger so far, oldest
    first; [lastChildId] is the [int32] counter of child processes. *)
Record Trace2 : Type := mkTrace2 {
  logger : list LogRecord;
  lastChildId : Z
}.

(** What an operation reads from its environment: [uuid.New()],
    [runtime.Caller(2)], the clock (nanoseconds since [globalStart]) and
    [os.Args]. *)
Record Sys : Type := mkSys {
  uuid_New : string;
  runtime_Caller : option (string * Z);
  time_Now : Z;
  os_Args : list string
}.

(** An [*exec.Cmd] as its owner has it at some moment: [Process] and
    [ProcessState] are pointers, nil until the command has started,
    respectively has been waited for. *)
Record Cmd : Type := mkCmd {
  Args : list string;
  Process : option Z;
  ProcessState : option (Z * Z)
}.

Inductive outcome (A : Type) : Type :=
| Done (a : A)
| Panicked (reason : string).
Arguments Done {A} a.
Arguments Panicked {A} reason.

Definition M (A : Type) : Type := Trace2 -> outcome (A * Trace2).

Definition ret {A} (a : A) : M A := fun t => Done (a, t).

Definition bind {A B} (m : M A) (k : A -> M B) : M B :=
  fun t => match m t with
           | Done (a, t') => k a t'
           | Panicked r => Panicked r
           end.

Definition panic {A} (reason : string) : M A := fun _ => Panicked reason.

Declare Scope trace_scope.
Delimit Scope trace_scope with trace.
Notation "x <- m ;; k" := (bind m (fun x => k))
  (at level 100, m at next level, right associativity) : trace_scope.
Notation "m ;;; k" := (bind m (fun _ => k))
  (at level 100, right associativity) : trace_scope.

Definition nilDereference : string :=
  "invalid memory address or nil pointer dereference"%string.

(** [t.logger.Debug], [t.logger.Info], [t.logger.Error]. *)
Definition logger_log (lvl : Level) (now : Z) (event : string)
    (fields : fieldList) : M unit :=
  fun t => Done (tt, mkTrace2 (logger t ++ [mkRecord lvl now event fields])
                              (lastChildId t)).

Definition logger_Debug := logger_log DebugLevel.
Definition logger_Info := logger_log InfoLevel.
Definition logger_Error := logger_log ErrorLevel.

(** [atomic.AddInt32(&t.lastChildId, delta)]: one indivisible step that
    returns the new value. *)
Definition atomic_AddInt32_lastChildId (delta : Z) : M Z :=
  fun t => let v := GoInt.int32 (lastChildId t + delta) in
           Done (v, mkTrace2 (logger t) v).

(** [filepath.Base] with the separator '/'. *)
Definition isSeparator (c : ascii) : bool := Ascii.eqb c "/"%char.

Fixpoint dropSeparators (l : list ascii) : list ascii :=
  match l with
  | c :: l' => if isSeparator c then dropSeparators l' else l
  | [] => []
  end.

Fixpoint lastElement (l : list ascii) : list ascii :=
  match l with
  | c :: l' => if isSeparator c then [] else c :: lastElement l'
  | [] => []
  end.

Definition filepath_Base (path : string) : string :=
  match path with
  | EmptyString => "."%string
  | _ =>
      let r := dropSeparators (rev (list_ascii_of_string path)) in
      match lastElement r with
      | [] => "/"%string
      | e => string_of_list_ascii (rev e)
      end
  end.

(** ** The facade of trace2.go *)

Definition NewTrace2 : Trace2 := mkTrace2 [] (-1).

Definition withTime (sys : Sys) (l : fieldList) : fieldList :=
  l ++ [zap_Duration tr2Field_TAbs (time_Now sys)].

Definition withNesting (now : Z) (l : fieldList) (r : trace2Region)
    (includeTRel : bool) : fieldList :=
  let l := l ++ [zap_Int tr2Field_Nesting (level r)] in
  if includeTRel then l ++ [zap_Duration tr2Field_TRel (now - tStart r)]
  else l.

Definition with_ (l : fieldList) (f : list Field) : fieldList := l ++ f.

Definition sharedFields (sys : Sys) (ctx : Context) : Context * fieldList :=
  let '(ctx, sid) := getOrSetContextValue_uuid ctx sidId (uuid_New sys) in
  let fields := [zap_String tr2Field_Sid sid] in
  let fields := fields ++ [zap_String tr2Field_Thread "main"] in
  let fields :=
    match runtime_Caller sys with
    | Some (fileName, lineNum) =>
        fields ++ [zap_String tr2Field_File (filepath_Base fileName);
                   zap_Int tr2Field_Line lineNum]
    | None => fields
    end in
  (ctx, fields).

Local Open Scope trace_scope.

Definition logStart (sys : Sys) (ctx : Context) : M Context :=
  let '(ctx, shared) := sharedFields sys ctx in
  logger_Info (time_Now sys) tr2Event_Start
    (with_ (withTime sys shared) [zap_Strings tr2Field_Argv (os_Args sys)]) ;;;
  ret ctx.

Definition logExit (sys : Sys) (ctx : Context) (exitCode : Z) : M unit :=
  let '(_, shared) := sharedFields sys ctx in
  let fields := with_ shared [zap_Int tr2Field_Code exitCode] in
  logger_Info (time_Now sys) tr2Event_Exit (withTime sys fields) ;;;
  logger_Info (time_Now sys) tr2Event_AtExit (withTime sys fields).

(** The state of the region entered by [Region] on [ctx]: level 0 without a
    parent region, the parent's level incremented otherwise. *)
Definition enterRegion (sys : Sys) (ctx : Context) : trace2Region :=
  let '(hasParentRegion, nesting) :=
    getContextValue_region ctx parentRegionId in
  if negb hasParentRegion then mkRegion 0 (time_Now sys)
  else mkRegion (GoInt.int (level nesting + 1)) (time_Now sys).

(** The returned closure is given the clock at the time it is called. *)
Definition Region (sys : Sys) (ctx : Context) (category label : string)
  : M (Context * (Z -> M unit)) :=
  let '(ctx, shared) := sharedFields sys ctx in
  let shared := withTime sys shared in
  let nesting := enterRegion sys ctx in
  let ctx := WithValue ctx (pkgKey parentRegionId) (valRegion nesting) in
  let regionFields := [zap_String tr2Field_Category category;
                       zap_String tr2Field_Label label] in
  logger_Debug (time_Now sys) tr2Event_RegionEnter
    (with_ (withNesting (time_Now sys) shared nesting false) regionFields) ;;;
  ret (ctx, fun now =>
         logger_Debug now tr2Event_RegionLeave
           (with_ (withNesting now shared nesting true) regionFields)).

(** [childReady] and [childExit] read [cmd] through the pointer when they
    are called: they are given the command as it is at that moment.  The
    arguments of [t.logger.Debug] are evaluated before the call, so a nil
    [cmd.Process] or [cmd.ProcessState] panics before anything is logged. *)
Definition childReady (shared : fieldList) (childId : Z)
    (cmd : Cmd) (execError : option error) (now : Z) : M unit :=
  let ready := zap_String tr2Field_Ready "ready" in
  let ready := match execError with
               | Some _ => zap_String tr2Field_Ready "error"
               | None => ready
               end in
  match Process cmd with
  | None => panic nilDereference
  | Some pid =>
      logger_Debug now tr2Event_ChildReady
        (with_ shared [zap_Int32 tr2Field_ChildId childId;
                       zap_Int tr2Field_Pid pid;
                       ready;
                       zap_Strings tr2Field_Argv (Args cmd)])
  end.

Definition childExit (shared : fieldList) (childId : Z) (startTime : Z)
    (cmd : Cmd) (now : Z) : M unit :=
  match ProcessState cmd with
  | None => panic nilDereference
  | Some (pid, code) =>
      logger_Debug now tr2Event_ChildExit
        (with_ shared [zap_Int32 tr2Field_ChildId childId;
                       zap_Int tr2Field_Pid pid;
                       zap_Int tr2Field_Code code;
                       zap_Duration tr2Field_TRel (now - startTime)])
  end.

Definition ChildProcess (sys : Sys) (ctx : Context) (cmd : Cmd)
  : M ((Cmd -> option error -> Z -> M unit) * (Cmd -> Z -> M unit)) :=
  let '(_, shared) := sharedFields sys ctx in
  childId <- atomic_AddInt32_lastChildId 1 ;;
  logger_Debug (time_Now sys) tr2Event_ChildStart
    (with_ shared [zap_Int32 tr2Field_ChildId childId;
                   zap_String tr2Field_ChildClass "?";
                   zap_Bool tr2Field_UseShell false;
                   zap_Strings tr2Field_Argv (Args cmd)]) ;;;
  let startTime := time_Now sys in
  ret (childReady shared childId, childExit shared childId startTime).

Definition LogCommand (sys : Sys) (ctx : Context) (commandName : string)
  : M Context :=
  let '(ctx, shared) := sharedFields sys ctx in
  logger_Info (time_Now sys) tr2Event_CmdName
    (with_ shared [zap_String tr2Field_Name commandName]) ;;;
  ret ctx.

(** [err.Error()] on the nil interface panics. *)
Definition Error (sys : Sys) (ctx : Context) (err : option error)
  : M error :=
  match err with
  | None => panic nilDereference
  | Some e =>
      (if negb (isLoggedError e) then
         let '(_, shared) := sharedFields sys ctx in
         logger_Error (time_Now sys) tr2Event_Error
           (with_ shared [zap_String tr2Field_Msg (error_Error e);
                          zap_String tr2Field_Fmt (error_Error e)])
       else ret tt) ;;;
      ret (loggedError e)
  end.

Section Errorf.

(** The message of the error built by [fmt.Errorf(format, a...)]. *)
Variable fmt_Sprintf : string -> list any -> string.

Definition fmt_Errorf (format : string) (a : list any) : error :=
  rawError (fmt_Sprintf format a).

Definition Errorf (sys : Sys) (ctx : Context) (format : string)
    (a : list any) : M error :=
  let isLogged := existsb anyIsLoggedError a in
  let err := loggedError (fmt_Errorf format a) in
  (if isLogged then
     let '(_, shared) := sharedFields sys ctx in
     logger_Info (time_Now sys) tr2Event_Error
       (with_ shared [zap_String tr2Field_Msg (error_Error err);
                      zap_String tr2Field_Fmt format])
   else ret tt) ;;;
  ret err.

End Errorf.

(** The "error" records among those handed to the logger. *)
Definition isErrorRecord (r : LogRecord) : bool :=
  String.eqb (recEvent r) tr2Event_Error.

(** What an operation added to the log. *)
Definition emitted (before after : Trace2) : list LogRecord :=
  skipn (length (logger before)) (logger after).

(** ** zap entries, dynamic values and the library functions of the encoders *)

Record Entry : Type := mkEntry {
  entLevel : Level;
  entTime : Z;
  entMessage : string
}.

(** A value as [zapcore.MapObjectEncoder] keeps it in [Fields], by its
    dynamic type. *)
Inductive MapValue : Type :=
| MString (s : string)
| MInt (z : Z)
| MInt64 (z : Z)
| MInt32 (z : Z)
| MBool (b : bool)
| MDuration (d : Z)
| MArray (l : list string).

(** What an encoder returns: a buffer, an error, or no return at all. *)
Inductive encoded : Type :=
| Buffer (buf : string)
| Failed (err : error)
| Crashed (reason : string).

(** The functions of Go's library that the encoders call and whose result
    is not fixed by the sources: the layout of a time of day, the rendering
    of a float, the width of a string, the verbs of [fmt] on operands they
    are not meant for, JSON, and zap's own JSON encoder. *)
Class GoLib : Type := {
  time_Format : Z -> string;
  fmt_f : Z -> string;
  utf8_RuneCountInString : string -> nat;
  fmt_s_other : nat -> MapValue -> string;
  fmt_d_other : MapValue -> string;
  fmt_s_prec : nat -> nat -> MapValue -> string;
  json_Marshal : MapValue -> option string;
  json_EncodeEntry : Entry -> list Field -> string
}.

Definition spaces (n : nat) : string :=
  string_of_list_ascii (repeat " "%char n).

Definition dots (n : nat) : string :=
  string_of_list_ascii (repeat "."%char n).

Definition newline : string := String (ascii_of_nat 10) EmptyString.

Definition decimal (z : Z) : string := NilZero.string_of_int (Z.to_int z).

Section Formatting.

Context {lib : GoLib}.

(** [fmt.Sprintf("%-*s", width, s)] on a string. *)
Definition padRight (width : nat) (s : string) : string :=
  (s ++ spaces (width - utf8_RuneCountInString s))%string.

(** [%-*s] (width 0: [%s]) and [%d] on a value of dynamic type. *)
Definition Sprintf_s (width : nat) (v : MapValue) : string :=
  match v with
  | MString s => padRight width s
  | _ => fmt_s_other width v
  end.

Definition Sprintf_d (v : MapValue) : string :=
  match v with
  | MInt z | MInt64 z | MInt32 z => decimal z
  | _ => fmt_d_other v
  end.

End Formatting.

Definition tr2Enc_Perf_FileLineWidth : nat := 28.
Definition tr2Enc_Perf_ThreadWidth : nat := 24.
Definition tr2Enc_Perf_EventWidth : nat := 12.
Definition tr2Enc_Perf_CategoryWidth : nat := 12.

(** [if len(fl) > width { fl = fl[:len(fl)-3] + "..." }], the same in both
    revisions of the encoder. *)
Definition truncateFileLine (fl : string) : string :=
  if Nat.ltb tr2Enc_Perf_FileLineWidth (String.length fl)
  then (String.substring 0 (String.length fl - 3) fl ++ "...")%string
  else fl.

(** The file:line column, without the separator that follows it. *)
Definition fileLineColumn {lib : GoLib} (fl : string) : string :=
  padRight tr2Enc_Perf_FileLineWidth (truncateFileLine fl).

(** ** The performance-table encoder (tr2-perf-encoder.go) *)

Module Perf.

Record tr2PerfEncoder : Type := mkEncoder {
  Fields : gmap string MapValue;
  isBrief : bool
}.

Definition NewTr2PerfEncoder (isBrief : bool) : tr2PerfEncoder :=
  mkEncoder ∅ isBrief.

(** [field.AddTo(t)]: zap stores [zap.Int] as an [int64] and
    [zap.Strings] as an array. *)
Definition AddTo (f : Field) (m : gmap string MapValue)
  : gmap string MapValue :=
  match Val f with
  | StringF s => <[Key f := MString s]> m
  | IntF z => <[Key f := MInt64 z]> m
  | Int32F z => <[Key f := MInt32 z]> m
  | BoolF b => <[Key f := MBool b]> m
  | DurationF d => <[Key f := MDuration d]> m
  | StringsF l => <[Key f := MArray l]> m
  end.

Definition addFields (fields : list Field) (m : gmap string MapValue)
  : gmap string MapValue :=
  fold_left (fun m f => AddTo f m) fields m.

Definition missingFieldError (fieldName : string) : error :=
  rawError ("missing required field '" ++ fieldName ++ "'")%string.

Definition getField (m : gmap string MapValue) (fieldName : string)
  : option MapValue := m !! fieldName.

(** The three ways a step of the encoder ends. *)
Inductive step (A : Type) : Type :=
| Ok (a : A)
| Err (e : error)
| Crash (reason : string).
Arguments Ok {A} a.
Arguments Err {A} e.
Arguments Crash {A} reason.

Definition andThen {A B} (s : step A) (k : A -> step B) : step B :=
  match s with
  | Ok a => k a
  | Err e => Err e
  | Crash r => Crash r
  end.

Notation "x <~ s ;; k" := (andThen s (fun x => k))
  (at level 100, s at next level, right associativity).

Definition getRequiredField (m : gmap string MapValue) (fieldName : string)
  : step MapValue :=
  match getField m fieldName with
  | None => Err (missingFieldError fieldName)
  | Some val => Ok val
  end.

Definition typeAssertion : string := "interface conversion"%string.

Definition assertString (v : MapValue) : step string :=
  match v with MString s => Ok s | _ => Crash typeAssertion end.

Definition assertDuration (v : MapValue) : step Z :=
  match v with MDuration d => Ok d | _ => Crash typeAssertion end.

Definition assertInt (v : MapValue) : step Z :=
  match v with MInt z => Ok z | _ => Crash typeAssertion end.

Section Encoder.

Context {lib : GoLib}.

Definition getEventLog (m : gmap string MapValue) (event : string)
  : step string :=
  if String.eqb event tr2Event_CmdName then
    val <~ getRequiredField m tr2Field_Name ;;
    assertString val
  else if String.eqb event tr2Event_Error then
    match getField m tr2Field_Msg with
    | None => Ok EmptyString
    | Some val => assertString val
    end
  else if String.eqb event tr2Event_ChildStart then
    childId <~ getRequiredField m tr2Field_ChildId ;;
    childClass <~ getRequiredField m tr2Field_ChildClass ;;
    argv <~ getRequiredField m tr2Field_Argv ;;
    match json_Marshal argv with
    | None =>
        Err (rawError ("could not format argument array '"
                       ++ tr2Field_Argv ++ "'")%string)
    | Some argvBuf =>
        Ok ("[ch" ++ Sprintf_d childId ++ "] class:"
            ++ Sprintf_s 0 childClass ++ " argv:" ++ argvBuf)%string
    end
  else if String.eqb event tr2Event_ChildReady then
    childId <~ getRequiredField m tr2Field_ChildId ;;
    pid <~ getRequiredField m tr2Field_Pid ;;
    ready <~ getRequiredField m tr2Field_Ready ;;
    Ok ("[ch" ++ Sprintf_d childId ++ "] pid:" ++ Sprintf_d pid
        ++ " ready:" ++ Sprintf_s 0 ready)%string
  else if String.eqb event tr2Event_ChildExit then
    childId <~ getRequiredField m tr2Field_ChildId ;;
    pid <~ getRequiredField m tr2Field_Pid ;;
    code <~ getRequiredField m tr2Field_Code ;;
    Ok ("[ch" ++ Sprintf_d childId ++ "] pid:" ++ Sprintf_d pid
        ++ " code:" ++ Sprintf_d code)%string
  else if String.eqb event tr2Event_RegionEnter
          || String.eqb event tr2Event_RegionLeave then
    match getField m tr2Field_Label with
    | None => Ok EmptyString
    | Some val => Ok ("label:" ++ Sprintf_s 0 val)%string
    end
  else if String.eqb event tr2Event_Exit
          || String.eqb event tr2Event_AtExit then
    val <~ getRequiredField m tr2Field_Code ;;
    Ok ("code:" ++ Sprintf_d val)%string
  else Ok EmptyString.

Definition elapsedColumn (m : gmap string MapValue) (fieldName : string)
  : step string :=
  match getField m fieldName with
  | None => Ok (spaces 9 ++ " | ")%string
  | Some val =>
      d <~ assertDuration val ;;
      Ok (fmt_f d ++ " | ")%string
  end.

Definition nestingDots (m : gmap string MapValue) : step string :=
  match getField m tr2Field_Nesting with
  | None => Ok EmptyString
  | Some val =>
      n <~ assertInt val ;;
      if (n <? 0)%Z then Crash "strings: negative Repeat count"%string
      else Ok (dots (Z.to_nat n))
  end.

(** The text of the line, over the field map once the fields of the
    entry have been added to it. *)
Definition encodeLine (m : gmap string MapValue) (brief : bool)
    (ent : Entry) : step string :=
  let event := entMessage ent in
  buffer <~ (if negb brief then
               let buffer := (time_Format (entTime ent) ++ " ")%string in
               file <~ getRequiredField m tr2Field_File ;;
               line <~ getRequiredField m tr2Field_Line ;;
               let fl := (Sprintf_s 0 file ++ ":" ++ Sprintf_d line)%string in
               Ok (buffer ++ fileLineColumn fl ++ " | ")%string
             else Ok EmptyString) ;;
  let buffer := (buffer ++ "d0 | ")%string in
  val <~ getRequiredField m tr2Field_Thread ;;
  let buffer :=
    (buffer ++ Sprintf_s tr2Enc_Perf_ThreadWidth val ++ " | ")%string in
  let buffer :=
    (buffer ++ padRight tr2Enc_Perf_EventWidth event ++ " | ")%string in
  let buffer := (buffer ++ "    | ")%string in
  tAbs <~ elapsedColumn m tr2Field_TAbs ;;
  let buffer := (buffer ++ tAbs)%string in
  tRel <~ elapsedColumn m tr2Field_TRel ;;
  let buffer := (buffer ++ tRel)%string in
  let val := match getField m tr2Field_Category with
             | Some val => val
             | None => MString EmptyString
             end in
  let buffer :=
    (buffer ++ fmt_s_prec tr2Enc_Perf_CategoryWidth
                 tr2Enc_Perf_CategoryWidth val ++ " | ")%string in
  nesting <~ nestingDots m ;;
  let buffer := (buffer ++ nesting)%string in
  logMsg <~ getEventLog m event ;;
  let buffer := (buffer ++ logMsg)%string in
  Ok (buffer ++ newline)%string.

(** [EncodeEntry] adds the fields to the encoder's own map, which it
    keeps, and renders from that map. *)
Definition EncodeEntry (t : tr2PerfEncoder) (ent : Entry)
    (fields : list Field) : tr2PerfEncoder * encoded :=
  let m := addFields fields (Fields t) in
  let t' := mkEncoder m (isBrief t) in
  match encodeLine m (isBrief t) ent with
  | Ok buf => (t', Buffer buf)
  | Err e => (t', Failed e)
  | Crash r => (t', Crashed r)
  end.

End Encoder.

End Perf.

(** ** The earlier revision of the encoder (the one trace2.go constructs
    with an encoder configuration) *)

Module EarlyPerf.

(** The members [String] and [Integer] of a [zap.Field]. *)
Definition Field_String (f : Field) : string :=
  match Val f with StringF s => s | _ => EmptyString end.

Definition Field_Integer (f : Field) : Z :=
  match Val f with
  | IntF z | Int32F z | DurationF z => z
  | BoolF b => if b then 1%Z else 0%Z
  | StringF _ | StringsF _ => 0%Z
  end.

Definition notFoundError (k : string) : error :=
  rawError ("could not find log field '" ++ k ++ "'")%string.

Fixpoint getField (k : string) (fields : list Field) : error + Field :=
  match fields with
  | [] => inl (notFoundError k)
  | field :: rest =>
      if String.eqb (Key field) k then inr field else getField k rest
  end.

Section Encoder.

Context {lib : GoLib}.

Definition elapsedColumn (k : string) (fields : list Field) : string :=
  match getField k fields with
  | inl _ => (spaces 9 ++ " | ")%string
  | inr f => (fmt_f (Field_Integer f) ++ " | ")%string
  end.

Definition EncodeEntry (ent : Entry) (fields : list Field) : encoded :=
  let buffer := (time_Format (entTime ent) ++ " ")%string in
  match getField "file" fields with
  | inl err => Failed err
  | inr file =>
  match getField "line" fields with
  | inl err => Failed err
  | inr line =>
  let fl := (Field_String file ++ ":" ++ decimal (Field_Integer line))%string in
  let buffer := (buffer ++ fileLineColumn fl ++ " | ")%string in
  let buffer := (buffer ++ "d0 | ")%string in
  match getField "thread" fields with
  | inl err => Failed err
  | inr thread =>
  let buffer :=
    (buffer ++ padRight tr2Enc_Perf_ThreadWidth (Field_String thread)
            ++ " | ")%string in
  let buffer :=
    (buffer ++ padRight tr2Enc_Perf_EventWidth (entMessage ent)
            ++ " | ")%string in
  let buffer := (buffer ++ "    | ")%string in
  let buffer := (buffer ++ elapsedColumn "t_abs" fields)%string in
  let buffer := (buffer ++ elapsedColumn "t_rel" fields)%string in
  let category := match getField "category" fields with
                  | inr f => Field_String f
                  | inl _ => EmptyString
                  end in
  let buffer :=
    (buffer ++ fmt_s_prec tr2Enc_Perf_CategoryWidth
                 tr2Enc_Perf_CategoryWidth (MString category)
            ++ " | ")%string in
  match (match getField "nesting" fields with
         | inr nesting =>
             if (Field_Integer nesting <? 0)%Z then None
             else Some (buffer ++ dots (Z.to_nat (Field_Integer nesting)))%string
         | inl _ => Some buffer
         end) with
  | None => Crashed "strings: negative Repeat count"
  | Some buffer =>
  let buffer := match getField "label" fields with
                | inr label => (buffer ++ "label:" ++ Field_String label)%string
                | inl _ => buffer
                end in
  let buffer := match getField "code" fields with
                | inr code => (buffer ++ "code:" ++ decimal (Field_Integer code))%string
                | inl _ => buffer
                end in
  Buffer (buffer ++ newline)%string
  end end end end.

End Encoder.

End EarlyPerf.

(** ** zap: encoders, cores and the logger built by trace2.go *)

Module Zap.

(** The implementations of [zapcore.Encoder] in play. *)
Inductive Encoder : Type :=
| JSONEncoder
| ConfigPerfEncoder
| FieldMapPerfEncoder (t : Perf.tr2PerfEncoder).

Definition EncodeEntry {lib : GoLib} (e : Encoder) (ent : Entry)
    (fields : list Field) : Encoder * encoded :=
  match e with
  | JSONEncoder => (e, Buffer (json_EncodeEntry ent fields))
  | ConfigPerfEncoder => (e, EarlyPerf.EncodeEntry ent fields)
  | FieldMapPerfEncoder t =>
      let '(t', r) := Perf.EncodeEntry t ent fields in
      (FieldMapPerfEncoder t', r)
  end.

(** [zapcore.NewCore(enc, ws, level)] with every level enabled; [out] is
    what has been written to the sink. *)
Record ioCore : Type := NewCore { enc : Encoder; out : list string }.

(** [ioCore.Write]: encode, and write the buffer only when the encoder
    returned one. *)
Definition Write {lib : GoLib} (c : ioCore) (ent : Entry)
    (fields : list Field) : outcome (ioCore * option error) :=
  match EncodeEntry (enc c) ent fields with
  | (e, Buffer buf) => Done (NewCore e (out c ++ [buf]), None)
  | (e, Failed err) => Done (NewCore e (out c), Some err)
  | (_, Crashed r) => Panicked r
  end.

(** A logger over a tee of cores: every core is written to, and the
    errors of the cores go to [ErrorOutput]. *)
Record Logger : Type := New { cores : list ioCore; ErrorOutput : list error }.

Fixpoint writeCores {lib : GoLib} (cs : list ioCore) (ent : Entry)
    (fields : list Field) : outcome (list ioCore * list error) :=
  match cs with
  | [] => Done ([], [])
  | c :: rest =>
      match Write c ent fields with
      | Panicked r => Panicked r
      | Done (c', err) =>
          match writeCores rest ent fields with
          | Panicked r => Panicked r
          | Done (rest', errs) =>
              Done (c' :: rest',
                    match err with Some e => e :: errs | None => errs end)
          end
      end
  end.

Definition log {lib : GoLib} (l : Logger) (r : LogRecord) : outcome Logger :=
  let ent := mkEntry (recLevel r) (recTime r) (recEvent r) in
  match writeCores (cores l) ent (recFields r) with
  | Panicked reason => Panicked reason
  | Done (cs, errs) => Done (New cs (ErrorOutput l ++ errs))
  end.

Fixpoint logAll {lib : GoLib} (l : Logger) (rs : list LogRecord)
  : outcome Logger :=
  match rs with
  | [] => Done l
  | r :: rest =>
      match log l r with
      | Panicked reason => Panicked reason
      | Done l' => logAll l' rest
      end
  end.

End Zap.

(** [createTrace2EventCore]: the JSON encoder it builds first is replaced by
    the performance-table encoder before the core is made. *)
Definition createTrace2EventCore : Zap.ioCore :=
  let encoder := Zap.JSONEncoder in
  let encoder := Zap.ConfigPerfEncoder in
  let writeSyncer := [] in
  Zap.NewCore encoder writeSyncer.

Definition createTrace2ZapLogger : Zap.Logger :=
  Zap.New [createTrace2EventCore] [].

(** The lines the event channel holds after the recorder [t] has run. *)
Definition eventChannel {lib : GoLib} (t : Trace2) : outcome (list (list string)) :=
  match Zap.logAll createTrace2ZapLogger (logger t) with
  | Done l => Done (map Zap.out (Zap.cores l))
  | Panicked r => Panicked r
  end.

(** A plain instance of the library, for running the model: times and
    durations as their number of nanoseconds, one column per byte. *)
Definition plainLib : GoLib := {|
  time_Format := decimal;
  fmt_f := decimal;
  utf8_RuneCountInString := String.length;
  fmt_s_other := fun _ _ => "%!s"%string;
  fmt_d_other := fun _ => "%!d"%string;
  fmt_s_prec := fun w p v =>
    match v with
    | MString s => (String.substring 0 p s
                    ++ spaces (w - String.length (String.substring 0 p s)))%string
    | _ => "%!s"%string
    end;
  json_Marshal := fun v =>
    match v with
    | MArray l => Some ("[" ++ String.concat "," l ++ "]")%string
    | _ => Some "null"%string
    end;
  json_EncodeEntry := fun ent _ => ("{" ++ entMessage ent ++ "}")%string
|}.

(** ** Auxiliary definitions for the statements *)

(** The level of the region a context is in, if it is in one. *)
Definition regionLevel (ctx : Context) : option Z :=
  match getContextValue_region ctx parentRegionId with
  | (true, r) => Some (level r)
  | (false, _) => None
  end.

(** The level [Region] is to record on [ctx]. *)
Definition nextLevel (ctx : Context) : Z :=
  match regionLevel ctx with
  | None => 0%Z
  | Some n => (n + 1)%Z
  end.

(** The level of the enclosing region can be incremented in an [int]
    without overflow and is not negative. *)
Definition levelInRange (ctx : Context) : Prop :=
  match regionLevel ctx with
  | None => True
  | Some n => (0 <= n < GoInt.MaxInt)%Z
  end.

(** [ctx] is [ctx'] or one of its ancestors. *)
Fixpoint isAncestor (ctx ctx' : Context) {struct ctx'} : Prop :=
  ctx' = ctx \/
  match ctx' with
  | Background => False
  | WithValue parent _ _ => isAncestor ctx parent
  end.

Fixpoint depth (ctx : Context) : nat :=
  match ctx with
  | Background => 0
  | WithValue parent _ _ => S (depth parent)
  end.

(** The value of an integer field of a record. *)
Fixpoint fieldInt (k : string) (fields : list Field) : option Z :=
  match fields with
  | [] => None
  | f :: rest =>
      if String.eqb (Key f) k then
        match Val f with
        | IntF z | Int32F z => Some z
        | _ => None
        end
      else fieldInt k rest
  end.

(** The child ids announced by the "child_start" records of a log. *)
Fixpoint childIds (records : list LogRecord) : list Z :=
  match records with
  | [] => []
  | r :: rest =>
      if String.eqb (recEvent r) tr2Event_ChildStart then
        match fieldInt tr2Field_ChildId (recFields r) with
        | Some id => id :: childIds rest
        | None => childIds rest
        end
      else childIds rest
  end.

(** The operations of the facade a client performs on one recorder. *)
Inductive call : Type :=
| callLogStart (sys : Sys) (ctx : Context)
| callLogCommand (sys : Sys) (ctx : Context) (commandName : string)
| callRegion (sys : Sys) (ctx : Context) (category label : string)
| callChildProcess (sys : Sys) (ctx : Context) (cmd : Cmd)
| callError (sys : Sys) (ctx : Context) (err : error)
| callErrorf (sys : Sys) (ctx : Context) (format : string) (a : list any).

Definition isChildProcess (c : call) : bool :=
  match c with callChildProcess _ _ _ => true | _ => false end.

(** An invocation under way.  [ChildProcess] takes its id with the atomic
    increment and hands the "child_start" record to the logger afterwards;
    other invocations may take their steps in between. *)
Inductive thread : Type :=
| ready (c : call)
| announcing (sys : Sys) (ctx : Context) (cmd : Cmd) (childId : Z)
| finished (childId : option Z).

(** The call of [t.logger.Debug] in [ChildProcess]. *)
Definition announceChild (sys : Sys) (ctx : Context) (cmd : Cmd)
    (childId : Z) : M unit :=
  logger_Debug (time_Now sys) tr2Event_ChildStart
    (with_ (snd (sharedFields sys ctx))
       [zap_Int32 tr2Field_ChildId childId;
        zap_String tr2Field_ChildClass "?";
        zap_Bool tr2Field_UseShell false;
        zap_Strings tr2Field_Argv (Args cmd)]).





Section Lifetime.

Variable fmt_Sprintf : string -> list any -> string.

Definition perform (c : call) : M unit :=
  match c with
  | callLogStart sys ctx => logStart sys ctx ;;; ret tt
  | callLogCommand sys ctx name => LogCommand sys ctx name ;;; ret tt
  | callRegion sys ctx category label =>
      Region sys ctx category label ;;; ret tt
  | callChildProcess sys ctx cmd => ChildProcess sys ctx cmd ;;; ret tt
  | callError sys ctx err => Error sys ctx (Some err) ;;; ret tt
  | callErrorf sys ctx format a =>
      Errorf fmt_Sprintf sys ctx format a ;;; ret tt
  end.

Fixpoint performAll (cs : list call) : M unit :=
  match cs with
  | [] => ret tt
  | c :: rest => perform c ;;; performAll rest
  end.

(** One step of an invocation, with the id it is given in that step, if
    any.  [ChildProcess] is two steps, the increment and the announcement;
    the other operations are one. *)
Definition step (th : thread) : M (thread * list Z) :=
  match th with
  | ready (callChildProcess sys ctx cmd) =>
      childId <- atomic_AddInt32_lastChildId 1 ;;
      ret (announcing sys ctx cmd childId, [childId])
  | ready c => perform c ;;; ret (finished None, [])
  | announcing sys ctx cmd childId =>
      announceChild sys ctx cmd childId ;;; ret (finished (Some childId), [])
  | finished id => ret (finished id, [])
  end.


End Lifetime.

(** The fields [getEventLog] asks for with [getRequiredField], by event. *)
Definition requiredFields (event : string) : list string :=
  if String.eqb event tr2Event_CmdName then [tr2Field_Name]
  else if String.eqb event tr2Event_ChildStart then
    [tr2Field_ChildId; tr2Field_ChildClass; tr2Field_Argv]
  else if String.eqb event tr2Event_ChildReady then
    [tr2Field_ChildId; tr2Field_Pid; tr2Field_Ready]
  else if String.eqb event tr2Event_ChildExit then
    [tr2Field_ChildId; tr2Field_Pid; tr2Field_Code]
  else if String.eqb event tr2Event_Exit || String.eqb event tr2Event_AtExit
  then [tr2Field_Code]
  else [].

(** The table of required fields as the specification gives it (section
    4.3); it differs from [requiredFields] at "start". *)
Definition requiredFields_spec (event : string) : list string :=
  if String.eqb event tr2Event_Start then [tr2Field_Argv]
  else requiredFields event.

(** The columns read with a type assertion hold values of the asserted
    type: durations for the elapsed times, a non-negative [int] for the
    nesting. *)
Definition columnsWellTyped (m : gmap string MapValue) : bool :=
  match m !! tr2Field_TAbs with
  | None | Some (MDuration _) => true
  | _ => false
  end &&
  match m !! tr2Field_TRel with
  | None | Some (MDuration _) => true
  | _ => false
  end &&
  match m !! tr2Field_Nesting with
  | None => true
  | Some (MInt n) => (0 <=? n)%Z
  | _ => false
  end.

Definition hasKey (k : string) (fields : list Field) : bool :=
  existsb (fun f => String.eqb (Key f) k) fields.

(** Inputs used to run the model. *)
Definition sysAt (now : Z) : Sys :=
  mkSys "c0ffee00-0000-4000-8000-000000000001"
        (Some ("/src/git-bundle-server/cmd/git-bundle-server/init.go"%string, 42%Z))
        now ["git-bundle-server"; "init"]%string.

Definition sysNoCaller : Sys :=
  mkSys "c0ffee00-0000-4000-8000-000000000001" None 7%Z
        ["git-bundle-server"; "init"]%string.

Definition plainSprintf (format : string) (a : list any) : string := format.

Definition fileLine35 : string := "internal_pkg_daemon_launchd.go:1234".

(** The context and the closure [Region] returns, and the record it emits. *)
Definition regionContext (sys : Sys) (ctx : Context) : Context :=
  let c := fst (sharedFields sys ctx) in
  WithValue c (pkgKey parentRegionId) (valRegion (enterRegion sys c)).

Definition regionRecord (event : string) (sys : Sys) (ctx : Context)
    (category label : string) (now : Z) (includeTRel : bool) : LogRecord :=
  let c := fst (sharedFields sys ctx) in
  mkRecord DebugLevel now event
    (with_ (withNesting now (withTime sys (snd (sharedFields sys ctx)))
              (enterRegion sys c) includeTRel)
       [zap_String tr2Field_Category category;
        zap_String tr2Field_Label label]).


(** The level of a region is below the length of the chain that holds it. *)
Definition levelBounded (ctx : Context) : Prop :=
  match regionLevel ctx with
  | None => True
  | Some n => (0 <= n < Z.of_nat (depth ctx))%Z
  end.

(** What a record says: its event and its nesting. *)
Definition eventAndNesting (r : LogRecord) : string * option Z :=
  (recEvent r, fieldInt tr2Field_Nesting (recFields r)).


(** A lifetime of a recorder with three child processes. *)
Definition threeChildren : list call :=
  [callLogStart (sysAt 0) Background;
   callChildProcess (sysAt 1) Background (mkCmd ["git"; "fetch"]%string None None);
   callRegion (sysAt 2) Background "bundle" "create";
   callChildProcess (sysAt 3) Background (mkCmd ["git"; "bundle"]%string None None);
   callErrorf (sysAt 4) Background "failed: %w" [anyError (rawError "exit 1")];
   callChildProcess (sysAt 5) Background (mkCmd ["git"; "gc"]%string None None)].


(** The fields of a "child_exit" without its pid, and those of a "start"
    without its argv. *)
Definition childExitWithoutPid : list Field :=
  snd (sharedFields (sysAt 9) Background)
  ++ [zap_Int32 tr2Field_ChildId 0; zap_Int tr2Field_Code 0;
      zap_Duration tr2Field_TRel 5].

Definition startWithoutArgv : list Field :=
  withTime (sysAt 7) (snd (sharedFields (sysAt 7) Background)).

Definition longFileLine : list Field :=
  [zap_String tr2Field_Sid "c0ffee"; zap_String tr2Field_Thread "main";
   zap_String tr2Field_File "internal_pkg_daemon_launchd.go";
   zap_Int tr2Field_Line 1234].

(** ** The rest of trace2.go: termination and the sinks *)

(** [os.Exit] ends the process: nothing is returned to the caller. *)
Inductive halted : Type :=
| osExit (code : Z) (t : Trace2)
| goPanic (reason : string).

Definition Exit (sys : Sys) (ctx : Context) (exitCode : Z) (t : Trace2)
  : halted :=
  match logExit sys ctx exitCode t with
  | Done (_, t') => osExit exitCode t'
  | Panicked reason => goPanic reason
  end.

Definition Fatal (sys : Sys) (ctx : Context) (err : option error)
    (t : Trace2) : halted :=
  Exit sys ctx 1 t.

Definition Fatalf (sys : Sys) (ctx : Context) (format : string)
    (a : list any) (t : Trace2) : halted :=
  Exit sys ctx 1 t.

(** [Goroutine] has an empty body: the routine it is given is not run. *)
Definition Goroutine (ctx : Context) (routine : M unit) : M unit := ret tt.

(** [strconv.Atoi]: an optional sign and at least one decimal digit, the
    value within the range of [int]; anything else is an error. *)
Definition digitValue (c : ascii) : option Z :=
  let n := nat_of_ascii c in
  if (48 <=? n)%nat && (n <=? 57)%nat then Some (Z.of_nat (n - 48)) else None.

Fixpoint parseDigits (acc : Z) (s : string) : option Z :=
  match s with
  | EmptyString => Some acc
  | String c rest =>
      match digitValue c with
      | Some d => parseDigits (acc * 10 + d) rest
      | None => None
      end
  end.

Definition splitSign (s : string) : bool * string :=
  match s with
  | String c rest =>
      if Ascii.eqb c "-" then (true, rest)
      else if Ascii.eqb c "+" then (false, rest)
      else (false, s)
  | EmptyString => (false, s)
  end.

Definition strconv_Atoi (s : string) : option Z :=
  let '(negative, digits) := splitSign s in
  match digits with
  | EmptyString => None
  | _ =>
      match parseDigits 0 digits with
      | None => None
      | Some n =>
          let v := if negative then (- n)%Z else n in
          if (- 2 ^ 63 <=? v)%Z && (v <=? GoInt.MaxInt)%Z then Some v
          else None
      end
  end.

(** What [getTrace2WriteSyncer] asks of its host: the environment, [os.Stat]
    ([Some isDir], or [None] for an error), [path.Dir], [zap.Open] (the error
    it returns, if any) and the text of the start time. *)
Record Host : Type := mkHost {
  os_Getenv : string -> string;
  os_Stat : string -> option bool;
  path_Dir : string -> string;
  zap_Open : string -> option string;
  globalStart_Format : string
}.

Inductive WriteSyncer : Type :=
| lockedStderr
| openedFile (filename : string)
| discard.

(** The changes made to the file system on the way. *)
Inductive hostCall : Type :=
| os_MkdirAll (dir : string)
| zap_Opened (filename : string).

Definition getTrace2WriteSyncer (h : Host) (envKey : string)
  : outcome (WriteSyncer * list hostCall) :=
  let tr2Output := os_Getenv h envKey in
  match strconv_Atoi tr2Output with
  | Some tr2 =>
      if (tr2 =? 1)%Z then Done (lockedStderr, [])
      else Done (discard, [])
  | None =>
      if negb (String.eqb tr2Output EmptyString) then
        let '(filename, calls) :=
          match os_Stat h tr2Output with
          | Some true =>
              (("trace2_" ++ globalStart_Format h ++ ".txt")%string, [])
          | _ => (tr2Output, [os_MkdirAll (path_Dir h tr2Output)])
          end in
        match zap_Open h filename with
        | Some err => Panicked err
        | None => Done (openedFile filename, calls ++ [zap_Opened filename])
        end
      else Done (discard, [])
  end.

(** The value of a string field of a record. *)
Fixpoint fieldString (k : string) (fields : list Field) : option string :=
  match fields with
  | [] => None
  | f :: rest =>
      if String.eqb (Key f) k then
        match Val f with
        | StringF s => Some s
        | _ => None
        end
      else fieldString k rest
  end.

(** The session a record belongs to, and the session of a context. *)
Definition recordSid (r : LogRecord) : option string :=
  fieldString tr2Field_Sid (recFields r).

Definition sessionOf (ctx : Context) : option string :=
  match getContextValue_uuid ctx sidId with
  | (true, sid) => Some sid
  | (false, _) => None
  end.

(** The session an operation called on [ctx] writes into its records. *)
Definition sidFor (sys : Sys) (ctx : Context) : string :=
  match sessionOf ctx with
  | Some sid => sid
  | None => uuid_New sys
  end.


(** ** More of the two encoders *)

(** [Clone] of the field-map encoder: a new, empty field map. *)
Definition Perf_Clone (t : Perf.tr2PerfEncoder) : Perf.tr2PerfEncoder :=
  Perf.mkEncoder ∅ (Perf.isBrief t).

(** The value [field.AddTo] stores for a field. *)
Definition mapValueOf (v : FieldValue) : MapValue :=
  match v with
  | StringF s => MString s
  | IntF z => MInt64 z
  | Int32F z => MInt32 z
  | BoolF b => MBool b
  | DurationF d => MDuration d
  | StringsF l => MArray l
  end.

(** The value of the last field with the key [k]. *)
Fixpoint lastValue (k : string) (fields : list Field) : option FieldValue :=
  match fields with
  | [] => None
  | f :: rest =>
      match lastValue k rest with
      | Some v => Some v
      | None => if String.eqb (Key f) k then Some (Val f) else None
      end
  end.

Definition mapHas (m : gmap string MapValue) (k : string) : bool :=
  match m !! k with Some _ => true | None => false end.

(** The values the summary of an event reads with a type assertion or
    passes to [json.Marshal] are fit for it. *)
Definition summaryWellTyped {lib : GoLib} (m : gmap string MapValue)
    (event : string) : bool :=
  if String.eqb event tr2Event_CmdName then
    match m !! tr2Field_Name with Some (MString _) | None => true | _ => false end
  else if String.eqb event tr2Event_Error then
    match m !! tr2Field_Msg with Some (MString _) | None => true | _ => false end
  else if String.eqb event tr2Event_ChildStart then
    match m !! tr2Field_Argv with
    | Some v => match json_Marshal v with Some _ => true | None => false end
    | None => true
    end
  else true.

(** The nesting the earlier encoder would repeat the dot for is negative. *)
Definition nestingNegative (fields : list Field) : bool :=
  match EarlyPerf.getField "nesting" fields with
  | inr nesting => (EarlyPerf.Field_Integer nesting <? 0)%Z
  | inl _ => false
  end.

Definition callSys (c : call) : Sys :=
  match c with
  | callLogStart sys _ | callLogCommand sys _ _ | callRegion sys _ _ _
  | callChildProcess sys _ _ | callError sys _ _
  | callErrorf sys _ _ _ => sys
  end.

Definition callCtx (c : call) : Context :=
  match c with
  | callLogStart _ ctx | callLogCommand _ ctx _ | callRegion _ ctx _ _
  | callChildProcess _ ctx _ | callError _ ctx _
  | callErrorf _ ctx _ _ => ctx
  end.

Definition callerKnown (c : call) : bool :=
  match runtime_Caller (callSys c) with Some _ => true | None => false end.


(** The level of the enclosing region, if any, is in the range
    [levelInRange] asks for. *)
Definition levelInRangeb (ctx : Context) : bool :=
  match regionLevel ctx with
  | None => true
  | Some n => (0 <=? n)%Z && (n <? GoInt.MaxInt)%Z
  end.

(** A call whose caller is known to the runtime and whose context holds a
    level of that range. *)
Definition callWellFormed (c : call) : bool :=
  callerKnown c && levelInRangeb (callCtx c).

(** What the earlier encoder needs of the fields of a record. *)
Definition renderable (r : LogRecord) : bool :=
  hasKey "file" (recFields r) && hasKey "line" (recFields r)
  && hasKey "thread" (recFields r) && negb (nestingNegative (recFields r)).

(** The fields of a complete "child_exit". *)
Definition childExitComplete : list Field :=
  childExitWithoutPid ++ [zap_Int tr2Field_Pid 4711].

(** ** The web server: routes *)

(** [strings.FieldsFunc(s, f)]: the maximal runs of characters that do not
    satisfy [f], in order. *)
Fixpoint FieldsFunc_from (f : ascii -> bool) (field : string) (s : string)
  : list string :=
  match s with
  | EmptyString =>
      match field with
      | EmptyString => []
      | _ => [field]
      end
  | String c rest =>
      if f c then
        match field with
        | EmptyString => FieldsFunc_from f EmptyString rest
        | _ => field :: FieldsFunc_from f EmptyString rest
        end
      else FieldsFunc_from f (field ++ String c EmptyString) rest
  end.

Definition strings_FieldsFunc (s : string) (f : ascii -> bool) : list string :=
  FieldsFunc_from f EmptyString s.

Definition parseRoute (path : string) : error + (string * string * string) :=
  let elements :=
    strings_FieldsFunc path (fun char => Ascii.eqb char "/") in
  match elements with
  | [] => inl (rawError "empty route")
  | [_] => inl (rawError "route has owner, but no repo")
  | [owner; repo] => inr (owner, repo, EmptyString)
  | [owner; repo; file] => inr (owner, repo, file)
  | _ => inl (rawError "path has depth exceeding three")
  end.

(** What [serve] uses of a repository, and what it answers: the status, the
    body, and the line it prints. *)
Record Repository : Type := mkRepository { WebDir : string }.

Record Response : Type := mkResponse {
  StatusCode : Z;
  Body : string;
  Printed : string
}.

Definition StatusOK : Z := 200.
Definition StatusNotFound : Z := 404.
Definition StatusInternalServerError : Z := 500.

Section Serve.

(** [core.GetRepositories()] and [os.ReadFile]. *)
Variable GetRepositories : error + gmap string Repository.
Variable os_ReadFile : string -> error + string.

Definition serve (path : string) : Response :=
  match parseRoute path with
  | inl err =>
      mkResponse StatusNotFound EmptyString
        ("Failed to parse route: " ++ error_Error err ++ newline)
  | inr (owner, repo, file) =>
      let route := (owner ++ "/" ++ repo)%string in
      match GetRepositories with
      | inl _ =>
          mkResponse StatusInternalServerError EmptyString
            ("Failed to load routes" ++ newline)
      | inr repos =>
          match repos !! route with
          | None =>
              mkResponse StatusNotFound EmptyString
                ("Failed to get route out of repos" ++ newline)
          | Some repository =>
              let file := if String.eqb file EmptyString
                          then "bundle-list"%string else file in
              let fileToServe := (WebDir repository ++ "/" ++ file)%string in
              match os_ReadFile fileToServe with
              | inl _ =>
                  mkResponse StatusNotFound EmptyString
                    ("Failed to read file" ++ newline)
              | inr data =>
                  mkResponse StatusOK data
                    ("Successfully serving content for " ++ route ++ "/"
                     ++ file ++ newline)
              end
          end
      end
  end.

End Serve.

(** A path element: not empty, without a '/'. *)
Definition isSlash (c : ascii) : bool := Ascii.eqb c "/".

Definition slashFree (s : string) : bool :=
  forallb (fun c => negb (isSlash c)) (list_ascii_of_string s).

Definition isElement (s : string) : bool :=
  negb (String.eqb s EmptyString) && slashFree s.

(** A server with one repository, for running [serve]. *)
Definition someRepositories : error + gmap string Repository :=
  inr {[ "octo/cat"%string := mkRepository "/srv/www/octo/cat" ]}.

Definition someFiles (filename : string) : error + string :=
  if String.eqb filename "/srv/www/octo/cat/bundle-list"
  then inr "[bundle]"%string
  else inl (rawError "no such file or directory").

(** ** The command executor (package cmd) *)

Module Executor.

(** The keys of a [Setting] and the dynamic values it carries.  Their
    declarations are in another file of the package; [applyOptions] shows
    what is used of them: four keys (and a default branch for any other
    value of the key type), and a second component of type [any] that is
    asserted to be an [io.Reader], an [io.Writer] or a [[]string]. *)
Inductive cmdSettingKey : Type :=
| stdinKey
| stdoutKey
| stderrKey
| envKey
| otherKey (n : Z).

Inductive value : Type :=
| nilValue
| stream (name : string) (reads writes : bool)
| stringSlice (l : list string)
| otherValue.

(** [utils.Pair[cmdSettingKey, any]]. *)
Record Setting : Type := NewPair {
  First : cmdSettingKey;
  Second : value
}.

(** The fields of an [*exec.Cmd] that the executor sets. *)
Record Command : Type := mkCommand {
  Path : string;
  Args : list string;
  Stdin : value;
  Stdout : value;
  Stderr : value;
  Env : list string
}.

(** [exec.Command(name, arg...)]. *)
Definition exec_Command (name : string) (arg : list string) : Command :=
  mkCommand name (name :: arg) nilValue nilValue nilValue [].

Definition interfaceConversion : string := "interface conversion"%string.

(** The type assertions [v.(io.Reader)] and [v.(io.Writer)]. *)
Definition isReader (v : value) : bool :=
  match v with stream _ true _ => true | _ => false end.

Definition isWriter (v : value) : bool :=
  match v with stream _ _ true => true | _ => false end.

Definition applyOption (cmd : Command) (setting : Setting)
    : outcome Command :=
  match First setting with
  | stdinKey =>
      if isReader (Second setting)
      then Done (mkCommand (Path cmd) (Args cmd) (Second setting)
                   (Stdout cmd) (Stderr cmd) (Env cmd))
      else Panicked interfaceConversion
  | stdoutKey =>
      if isWriter (Second setting)
      then Done (mkCommand (Path cmd) (Args cmd) (Stdin cmd)
                   (Second setting) (Stderr cmd) (Env cmd))
      else Panicked interfaceConversion
  | stderrKey =>
      if isWriter (Second setting)
      then Done (mkCommand (Path cmd) (Args cmd) (Stdin cmd)
                   (Stdout cmd) (Second setting) (Env cmd))
      else Panicked interfaceConversion
  | envKey =>
      match Second setting with
      | stringSlice env =>
          Done (mkCommand (Path cmd) (Args cmd) (Stdin cmd)
                  (Stdout cmd) (Stderr cmd) (Env cmd ++ env))
      | _ => Panicked "incorrect env setting type"
      end
  | otherKey _ => Panicked "invalid cmdSettingKey"
  end.

(** [applyOptions]: the loop over the settings, in order. *)
Fixpoint applyOptions (cmd : Command) (settings : list Setting)
    : outcome Command :=
  match settings with
  | [] => Done cmd
  | setting :: rest =>
      match applyOption cmd setting with
      | Done cmd' => applyOptions cmd' rest
      | Panicked r => Panicked r
      end
  end.

(** What [cmd.Wait()] leaves behind: a nil error or an [*exec.ExitError],
    with the code [cmd.ProcessState.ExitCode()] then gives, or another
    error. *)
Inductive waited : Type :=
| waitNil (code : Z)
| waitExitError (code : Z)
| waitFailed (err : error).

Section Run.

Variable fmt_Sprintf : string -> list any -> string.

(** The operating system: [exec.LookPath] (the message of its error, or the
    path), [cmd.Start()] (the message of its error, if any) and
    [cmd.Wait()].  The errors of [exec.LookPath] and [cmd.Start] are made by
    the library, so they are not of the type [loggedError]. *)
Variable exec_LookPath : string -> string + string.
Variable cmd_Start : Command -> option string.
Variable cmd_Wait : Command -> waited.

(** The logger of the executor is the recorder of trace2.go. *)
Definition buildCmd (sys : Sys) (ctx : Context) (command : string)
    (args : list string) : M (option Command * option error) :=
  match exec_LookPath command with
  | inl msg =>
      (err <- Errorf fmt_Sprintf sys ctx
                "failed to find '%s' on the path: %w"
                [anyString command; anyError (rawError msg)] ;;
       ret (None, Some err))%trace
  | inr exe => ret (Some (exec_Command exe args), None)
  end.

Definition runCmd (sys : Sys) (ctx : Context) (cmd : Command)
    : M (Z * option error) :=
  match cmd_Start cmd with
  | Some msg =>
      (err <- Errorf fmt_Sprintf sys ctx "command failed to start: %w"
                [anyError (rawError msg)] ;;
       ret ((-1)%Z, Some err))%trace
  | None =>
      match cmd_Wait cmd with
      | waitNil code | waitExitError code => ret (code, None)
      | waitFailed err => ret ((-1)%Z, Some err)
      end
  end.

Definition Run (sys : Sys) (ctx : Context) (command : string)
    (args : list string) (settings : list Setting)
    : M (Z * option error) :=
  (r <- buildCmd sys ctx command args ;;
   match r with
   | (_, Some err) => ret ((-1)%Z, Some err)
   | (None, None) => panic nilDereference
   | (Some cmd, None) =>
       match applyOptions cmd settings with
       | Done cmd' => runCmd sys ctx cmd'
       | Panicked reason => panic reason
       end
   end)%trace.


End Run.

(** The settings [applyOptions] accepts, and what they add to the
    environment. *)
Definition validSetting (setting : Setting) : bool :=
  match First setting, Second setting with
  | stdinKey, v => isReader v
  | (stdoutKey | stderrKey), v => isWriter v
  | envKey, stringSlice _ => true
  | _, _ => false
  end.

Definition envOf (setting : Setting) : list string :=
  match First setting, Second setting with
  | envKey, stringSlice env => env
  | _, _ => []
  end.

(** The value of the last setting with the key [k], or [v] without one. *)
Fixpoint lastSetting (k : cmdSettingKey) (v : value)
    (settings : list Setting) : value :=
  match settings with
  | [] => v
  | setting :: rest =>
      lastSetting k
        (match k, First setting with
         | stdinKey, stdinKey | stdoutKey, stdoutKey
         | stderrKey, stderrKey => Second setting
         | _, _ => v
         end) rest
  end.

(** A system where only "git" is on the path; it starts, and exits
    with 128. *)
Definition gitOnly (command : string) : string + string :=
  if String.eqb command "git" then inr "/usr/bin/git"%string
  else inl "executable file not found in $PATH"%string.

Definition gitStarts (cmd : Command) : option string := None.

Definition gitFails (cmd : Command) : waited := waitExitError 128%Z.

Definition someSettings : list Setting :=
  [NewPair stdoutKey (stream "/dev/stdout" false true);
   NewPair envKey (stringSlice ["LC_CTYPE=C"%string]);
   NewPair envKey (stringSlice ["GIT_TRACE2=1"%string])].

End Executor.

(** ** The entry point of git-bundle-server (cmd/git-bundle-server/main.go) *)

Module Main.

Section Program.

(** What the subcommands act on. *)
Variable World : Type.

(** The interface [Subcommand] of subcommand.go ([Description] is not used
    by [main]). *)
Record Subcommand : Type := mkSubcommand {
  Name : string;
  Run : list string -> World -> option error * World
}.

(** How [main] ends: it returns, or [log.Fatal] prints a message and calls
    [os.Exit(1)]. *)
Inductive ended : Type :=
| returned (w : World)
| log_Fatal (message : string) (w : World).

Definition usage : string :=
  String.append "usage: git-bundle-server <command> [<options>]"
    (String (ascii_of_nat 10) EmptyString).

(** The loop [for i := 0; i < len(cmds); i++] of [main]. *)
Fixpoint loop (cmds : list Subcommand) (name : string) (args : list string)
    (w : World) : ended :=
  match cmds with
  | [] => returned w
  | c :: rest =>
      if String.eqb (Name c) name then
        match Run c args w with
        | (Some err, w') =>
            log_Fatal (String.append "Failed with error: " (error_Error err))
              w'
        | (None, w') => loop rest name args w'
        end
      else loop rest name args w
  end.

(** [main], given the list [all()] returns and [os.Args]. *)
Definition main (cmds : list Subcommand) (os_Args : list string)
    (w : World) : ended :=
  match os_Args with
  | _ :: name :: args => loop cmds name args w
  | _ => log_Fatal usage w
  end.

End Program.

Arguments mkSubcommand {World} Name Run.
Arguments Name {World} s.
Arguments Run {World} s _ _.
Arguments returned {World} w.
Arguments log_Fatal {World} message w.
Arguments main {World} cmds os_Args w.
Arguments loop {World} cmds name args w.

(** Two subcommands that write down that they ran; "stop" fails. *)
Definition someCommands : list (Subcommand (list string)) :=
  [mkSubcommand "start" (fun args w => (None, w ++ ["start"%string]));
   mkSubcommand "stop"
     (fun args w => (Some (rawError "not running"), w ++ ["stop"%string]))].

End Main.

(** * Properties *)

(** ** Machine integers *)

Lemma int_small z : (- 2 ^ 63 <= z <= GoInt.MaxInt)%Z -> GoInt.int z = z.
Proof.
  unfold GoInt.int, GoInt.wrap, GoInt.MaxInt. intros H.
  rewrite Z.mod_small; lia.
Qed.

Lemma int32_small z :
  (GoInt.MinInt32 <= z <= GoInt.MaxInt32)%Z -> GoInt.int32 z = z.
Proof.
  unfold GoInt.int32, GoInt.wrap, GoInt.MinInt32, GoInt.MaxInt32. intros H.
  rewrite Z.mod_small; lia.
Qed.

(** ** The log only grows *)

Lemma emitted_app t l k :
  emitted t (mkTrace2 (logger t ++ l) k) = l.
Proof.
  unfold emitted. simpl.
  rewrite skipn_app, skipn_all, Nat.sub_diag. reflexivity.
Qed.


Lemma logger_log_run lvl now event fields t :
  logger_log lvl now event fields t =
  Done (tt, mkTrace2 (logger t ++ [mkRecord lvl now event fields])
                     (lastChildId t)).
Proof. reflexivity. Qed.

(** ** Error and Errorf *)

Lemma loggedError_isLogged e : isLoggedError (loggedError e) = true.
Proof. reflexivity. Qed.

Lemma loggedError_idempotent e : loggedError (loggedError e) = loggedError e.
Proof. reflexivity. Qed.

Lemma loggedError_of_logged e : isLoggedError e = true -> loggedError e = e.
Proof. destruct e; simpl; [discriminate | reflexivity]. Qed.

Lemma unwrapLogged_loggedError msg :
  unwrapLogged (loggedError (rawError msg)) = rawError msg.
Proof. reflexivity. Qed.

(** [Error] on an error that carries the marker changes nothing and returns
    its argument. *)
Lemma Error_logged sys ctx e t :
  isLoggedError e = true -> Error sys ctx (Some e) t = Done (e, t).
Proof.
  intros H. unfold Error, bind, ret. rewrite H. simpl.
  rewrite (loggedError_of_logged e H). reflexivity.
Qed.

(** [Error] on a raw error appends exactly one record, the "error" record
    with the message of the error, at the level Error. *)
Lemma Error_raw sys ctx e t :
  isLoggedError e = false ->
  Error sys ctx (Some e) t =
  Done (loggedError e,
        mkTrace2 (logger t ++
                  [mkRecord ErrorLevel (time_Now sys) tr2Event_Error
                     (with_ (snd (sharedFields sys ctx))
                        [zap_String tr2Field_Msg (error_Error e);
                         zap_String tr2Field_Fmt (error_Error e)])])
                 (lastChildId t)).
Proof.
  intros H. unfold Error, bind, ret. rewrite H. simpl.
  destruct (sharedFields sys ctx) as [c shared]. reflexivity.
Qed.

Lemma Error_nil sys ctx t : Error sys ctx None t = Panicked nilDereference.
Proof. reflexivity. Qed.

Lemma Errorf_run fmt_Sprintf sys ctx format a t :
  Errorf fmt_Sprintf sys ctx format a t =
  Done (markedError (fmt_Sprintf format a),
        if existsb anyIsLoggedError a then
          mkTrace2 (logger t ++
                    [mkRecord InfoLevel (time_Now sys) tr2Event_Error
                       (with_ (snd (sharedFields sys ctx))
                          [zap_String tr2Field_Msg (fmt_Sprintf format a);
                           zap_String tr2Field_Fmt format])])
                   (lastChildId t)
        else t).
Proof.
  unfold Errorf, bind, ret.
  destruct (existsb anyIsLoggedError a); simpl.
  - destruct (sharedFields sys ctx) as [c shared]. reflexivity.
  - reflexivity.
Qed.





(** ** Child processes *)

Lemma ChildProcess_run sys ctx cmd t :
  let childId := GoInt.int32 (lastChildId t + 1) in
  let shared := snd (sharedFields sys ctx) in
  ChildProcess sys ctx cmd t =
  Done ((childReady shared childId, childExit shared childId (time_Now sys)),
        mkTrace2 (logger t ++
                  [mkRecord DebugLevel (time_Now sys) tr2Event_ChildStart
                     (with_ shared
                        [zap_Int32 tr2Field_ChildId childId;
                         zap_String tr2Field_ChildClass "?";
                         zap_Bool tr2Field_UseShell false;
                         zap_Strings tr2Field_Argv (Args cmd)])])
                 childId).
Proof.
  unfold ChildProcess. destruct (sharedFields sys ctx) as [c shared].
  reflexivity.
Qed.

(** C9, evaluated on the code: when the child failed to start, [cmd.Process]
    is nil and the callback is called with a non-nil error; reading
    [cmd.Process.Pid] then panics and no "child_ready" record is handed to
    the logger.  With a process handle the record is emitted, with the
    status "error" for a non-nil argument. *)
Theorem childReady_without_process_panics :
  forall sys ctx args execError now t,
  exists ready exit t1,
    ChildProcess sys ctx (mkCmd args None None) t = Done ((ready, exit), t1) /\
    ready (mkCmd args None None) (Some execError) now t1
      = Panicked nilDereference /\
    (forall pid st, exists t2,
        ready (mkCmd args (Some pid) st) (Some execError) now t1
          = Done (tt, t2) /\
        map recEvent (emitted t1 t2) = [tr2Event_ChildReady]).
Proof.
  intros. rewrite ChildProcess_run. eexists _, _, _.
  split; [reflexivity |]. split; [reflexivity |].
  intros pid st. eexists. split; [reflexivity |].
  rewrite emitted_app. reflexivity.
Qed.

(** The shared fields never carry a child id. *)
Lemma sharedFields_keys sys ctx :
  map Key (snd (sharedFields sys ctx)) = [tr2Field_Sid; tr2Field_Thread]
  \/ map Key (snd (sharedFields sys ctx)) =
     [tr2Field_Sid; tr2Field_Thread; tr2Field_File; tr2Field_Line].
Proof.
  unfold sharedFields.
  destruct (getOrSetContextValue_uuid ctx sidId (uuid_New sys)) as [c sid].
  destruct (runtime_Caller sys) as [[fileName lineNum] |]; simpl; auto.
Qed.

Lemma fieldInt_app_skip k l1 l2 :
  ~ In k (map Key l1) -> fieldInt k (l1 ++ l2) = fieldInt k l2.
Proof.
  induction l1 as [| f l1 IH]; simpl; intros H; [reflexivity |].
  destruct (String.eqb_spec (Key f) k) as [Heq | Hne].
  - exfalso. apply H. now left.
  - apply IH. intros Hin. apply H. now right.
Qed.

Lemma sharedFields_no_childId sys ctx fields :
  fieldInt tr2Field_ChildId (snd (sharedFields sys ctx) ++ fields)
  = fieldInt tr2Field_ChildId fields.
Proof.
  apply fieldInt_app_skip.
  destruct (sharedFields_keys sys ctx) as [-> | ->]; simpl;
    intros H; repeat destruct H as [H | H]; try discriminate H; exact H.
Qed.

Lemma childIds_app l1 l2 : childIds (l1 ++ l2) = childIds l1 ++ childIds l2.
Proof.
  induction l1 as [| r l1 IH]; simpl; [reflexivity |].
  destruct (String.eqb (recEvent r) tr2Event_ChildStart); [| exact IH].
  destruct (fieldInt tr2Field_ChildId (recFields r)); [| exact IH].
  simpl. now rewrite IH.
Qed.

Lemma trace_eta t : mkTrace2 (logger t ++ []) (lastChildId t) = t.
Proof. destruct t. simpl. now rewrite app_nil_r. Qed.

(** Every operation of the facade returns; it appends to the log, and only
    [ChildProcess] moves the counter and announces a child id. *)
Lemma perform_run fmt_Sprintf c t :
  exists recs,
    perform fmt_Sprintf c t =
      Done (tt, mkTrace2 (logger t ++ recs)
                  (if isChildProcess c
                   then GoInt.int32 (lastChildId t + 1)
                   else lastChildId t)) /\
    childIds recs =
      (if isChildProcess c then [GoInt.int32 (lastChildId t + 1)] else []).
Proof.
  destruct c as [sys ctx | sys ctx name | sys ctx category label
                | sys ctx cmd | sys ctx err | sys ctx format a];
    cbn [perform isChildProcess].
  - unfold logStart, bind. destruct (sharedFields sys ctx) as [c shared].
    eexists. split; reflexivity.
  - unfold LogCommand, bind. destruct (sharedFields sys ctx) as [c shared].
    eexists. split; reflexivity.
  - unfold Region, bind. destruct (sharedFields sys ctx) as [c shared].
    eexists. split; reflexivity.
  - unfold bind. rewrite ChildProcess_run. eexists. split; [reflexivity |].
    simpl. unfold with_. rewrite sharedFields_no_childId. reflexivity.
  - unfold bind. destruct (isLoggedError err) eqn:Hlog.
    + rewrite (Error_logged _ _ _ _ Hlog). exists [].
      rewrite trace_eta. split; reflexivity.
    + rewrite (Error_raw _ _ _ _ Hlog). eexists. split; reflexivity.
  - unfold bind. rewrite Errorf_run.
    destruct (existsb anyIsLoggedError a).
    + eexists. split; reflexivity.
    + exists []. rewrite trace_eta. split; reflexivity.
Qed.

(** Operations performed one after the other: the ids announced are
    consecutive, in the order of the calls. *)
Lemma performAll_run fmt_Sprintf cs : forall t (n : nat),
  lastChildId t = (Z.of_nat n - 1)%Z ->
  (Z.of_nat (n + length (List.filter isChildProcess cs)) <= 2 ^ 31)%Z ->
  exists t',
    performAll fmt_Sprintf cs t = Done (tt, t') /\
    lastChildId t' =
      (Z.of_nat (n + length (List.filter isChildProcess cs)) - 1)%Z /\
    childIds (logger t') =
      childIds (logger t)
      ++ map Z.of_nat (seq n (length (List.filter isChildProcess cs))).
Proof.
  induction cs as [| c cs IH]; intros t n Hlast Hbound; simpl in *.
  - exists t. rewrite Nat.add_0_r, app_nil_r. auto.
  - destruct (perform_run fmt_Sprintf c t) as (recs & Hrun & Hids).
    unfold bind. rewrite Hrun.
    destruct (isChildProcess c); simpl in *.
    + assert (Hid : GoInt.int32 (lastChildId t + 1) = Z.of_nat n).
      { rewrite Hlast.
        replace (Z.of_nat n - 1 + 1)%Z with (Z.of_nat n) by lia.
        apply int32_small.
        unfold GoInt.MinInt32, GoInt.MaxInt32. lia. }
      rewrite Hid in *.
      destruct (IH (mkTrace2 (logger t ++ recs) (Z.of_nat n)) (S n))
        as (t' & Hrun' & Hlast' & Hids'); simpl; [lia | lia |].
      exists t'. split; [exact Hrun' |]. split.
      * rewrite Hlast'. f_equal. lia.
      * rewrite Hids'. simpl. rewrite childIds_app, Hids, <- app_assoc.
        reflexivity.
    + destruct (IH (mkTrace2 (logger t ++ recs) (lastChildId t)) n)
        as (t' & Hrun' & Hlast' & Hids'); simpl; [exact Hlast | exact Hbound |].
      exists t'. split; [exact Hrun' |]. split; [exact Hlast' |].
      rewrite Hids'. simpl. rewrite childIds_app, Hids, app_nil_r.
      reflexivity.
Qed.



(** *** Invocations that run concurrently *)



(** The two steps of [ChildProcess] make up the operation. *)
Lemma ChildProcess_in_two_steps fmt_Sprintf sys ctx cmd t :
  bind (step fmt_Sprintf (ready (callChildProcess sys ctx cmd)))
       (fun r => step fmt_Sprintf (fst r)) t
  = bind (ChildProcess sys ctx cmd)
         (fun _ => ret (finished (Some (GoInt.int32 (lastChildId t + 1))), []))
         t.
Proof.
  unfold bind. rewrite ChildProcess_run. reflexivity.
Qed.








(** ** Regions and contexts *)

Lemma sharedFields_ctx sys ctx :
  fst (sharedFields sys ctx) = ctx \/
  (fst (getContextValue_uuid ctx sidId) = false /\
   fst (sharedFields sys ctx) =
     WithValue ctx (pkgKey sidId) (valUUID (uuid_New sys))).
Proof.
  unfold sharedFields, getOrSetContextValue_uuid.
  destruct (getContextValue_uuid ctx sidId) as [[|] value]; simpl.
  - destruct (runtime_Caller sys) as [[f l] |]; auto.
  - destruct (runtime_Caller sys) as [[f l] |]; auto.
Qed.

(** Fetching the session id leaves every other binding as it is. *)
Lemma sharedFields_Value sys ctx k :
  k <> pkgKey sidId ->
  Value (fst (sharedFields sys ctx)) k = Value ctx k.
Proof.
  intros Hk. destruct (sharedFields_ctx sys ctx) as [-> | [_ ->]];
    [reflexivity |].
  simpl. destruct k as [[|] | n]; simpl; try reflexivity.
  now elim Hk.
Qed.

Lemma sharedFields_regionLevel sys ctx :
  regionLevel (fst (sharedFields sys ctx)) = regionLevel ctx.
Proof.
  unfold regionLevel, getContextValue_region.
  now rewrite sharedFields_Value.
Qed.

Lemma sharedFields_isAncestor sys ctx :
  isAncestor ctx (fst (sharedFields sys ctx)).
Proof.
  destruct (sharedFields_ctx sys ctx) as [-> | [_ ->]].
  - destruct ctx; simpl; auto.
  - simpl. right. destruct ctx; simpl; auto.
Qed.

Lemma isAncestor_depth ctx ctx' :
  isAncestor ctx ctx' -> depth ctx <= depth ctx'.
Proof.
  induction ctx' as [| parent IH k v]; intros H.
  - destruct H as [<- | []]. reflexivity.
  - destruct H as [<- | H]; [reflexivity |]. apply IH in H. simpl. lia.
Qed.

Lemma enterRegion_level sys ctx :
  level (enterRegion sys ctx) =
  match regionLevel ctx with
  | None => 0%Z
  | Some n => GoInt.int (n + 1)
  end.
Proof.
  unfold enterRegion, regionLevel.
  destruct (getContextValue_region ctx parentRegionId) as [[|] r];
    reflexivity.
Qed.

Lemma enterRegion_tStart sys ctx : tStart (enterRegion sys ctx) = time_Now sys.
Proof.
  unfold enterRegion.
  destruct (getContextValue_region ctx parentRegionId) as [[|] r];
    reflexivity.
Qed.

Lemma enterRegion_inRange sys ctx :
  levelInRange ctx -> level (enterRegion sys ctx) = nextLevel ctx.
Proof.
  unfold levelInRange, nextLevel. rewrite enterRegion_level.
  destruct (regionLevel ctx) as [n |]; [| reflexivity].
  intros H. apply int_small. unfold GoInt.MaxInt in *. lia.
Qed.

Lemma Region_run sys ctx category label t :
  exists leave,
    Region sys ctx category label t =
      Done ((regionContext sys ctx, leave),
            mkTrace2 (logger t ++
                      [regionRecord tr2Event_RegionEnter sys ctx category
                         label (time_Now sys) false])
                     (lastChildId t)) /\
    forall now t1,
      leave now t1 =
        Done (tt, mkTrace2 (logger t1 ++
                            [regionRecord tr2Event_RegionLeave sys ctx
                               category label now true])
                           (lastChildId t1)).
Proof.
  unfold Region, regionContext, regionRecord, bind.
  destruct (sharedFields sys ctx) as [c shared]. simpl.
  eexists. split; [reflexivity |]. intros now t1. reflexivity.
Qed.

Lemma regionLevel_regionContext sys ctx :
  regionLevel (regionContext sys ctx) =
  Some (level (enterRegion sys (fst (sharedFields sys ctx)))).
Proof. reflexivity. Qed.

Lemma regionRecord_nesting event sys ctx category label now includeTRel :
  fieldInt tr2Field_Nesting
    (recFields (regionRecord event sys ctx category label now includeTRel))
  = Some (level (enterRegion sys (fst (sharedFields sys ctx)))).
Proof.
  unfold regionRecord, with_, withNesting, withTime. simpl.
  destruct includeTRel; rewrite <- !app_assoc;
    (rewrite fieldInt_app_skip; [reflexivity |]);
    destruct (sharedFields_keys sys ctx) as [-> | ->]; simpl;
    intros H; repeat destruct H as [H | H]; try discriminate H; exact H.
Qed.

(** C5: [Region] entered on a context without an enclosing region records
    level 0, and entered on a context whose enclosing region has level N
    records level N+1, in the context it returns and in the "region_enter"
    and "region_leave" records; the level is not negative.  The level N of the
    enclosing region is one [Region] can produce: not negative and below the
    largest [int]. *)
Theorem Region_nesting_level :
  forall sys ctx category label t,
    levelInRange ctx ->
    exists ctx' leave t',
      Region sys ctx category label t = Done ((ctx', leave), t') /\
      (regionLevel ctx = None -> regionLevel ctx' = Some 0%Z) /\
      (forall N, regionLevel ctx = Some N ->
                 regionLevel ctx' = Some (N + 1)%Z) /\
      exists n,
        regionLevel ctx' = Some n /\ (0 <= n)%Z /\
        map eventAndNesting (emitted t t') = [(tr2Event_RegionEnter, Some n)] /\
        forall now t1, exists t2,
          leave now t1 = Done (tt, t2) /\
          map eventAndNesting (emitted t1 t2)
            = [(tr2Event_RegionLeave, Some n)].
Proof.
  intros sys ctx category label t Hrange.
  destruct (Region_run sys ctx category label t) as (leave & Hrun & Hleave).
  exists (regionContext sys ctx), leave. eexists. split; [exact Hrun |].
  assert (Hlevel : level (enterRegion sys (fst (sharedFields sys ctx)))
                   = nextLevel ctx).
  { rewrite enterRegion_level, sharedFields_regionLevel.
    rewrite <- (enterRegion_level sys ctx). now apply enterRegion_inRange. }
  rewrite regionLevel_regionContext, Hlevel.
  split; [| split].
  - intros Hnone. unfold nextLevel. now rewrite Hnone.
  - intros N HN. unfold nextLevel. now rewrite HN.
  - exists (nextLevel ctx). split; [reflexivity |]. split.
    + unfold nextLevel, levelInRange in *.
      destruct (regionLevel ctx); lia.
    + split.
      * rewrite emitted_app. simpl. unfold eventAndNesting.
        rewrite regionRecord_nesting, Hlevel. reflexivity.
      * intros now t1. eexists. split; [apply Hleave |].
        rewrite emitted_app. simpl. unfold eventAndNesting.
        rewrite regionRecord_nesting, Hlevel. reflexivity.
Qed.

Lemma Region_nesting_level_witness :
  levelInRange (regionContext (sysAt 1) Background) /\
  exists ctx' leave t',
    Region (sysAt 5) (regionContext (sysAt 1) Background) "fetch" "bundle"
      NewTrace2 = Done ((ctx', leave), t') /\
    (regionLevel (regionContext (sysAt 1) Background) = None ->
     regionLevel ctx' = Some 0%Z) /\
    (forall N, regionLevel (regionContext (sysAt 1) Background) = Some N ->
               regionLevel ctx' = Some (N + 1)%Z) /\
    exists n,
      regionLevel ctx' = Some n /\ (0 <= n)%Z /\
      map eventAndNesting (emitted NewTrace2 t')
        = [(tr2Event_RegionEnter, Some n)] /\
      forall now t1, exists t2,
        leave now t1 = Done (tt, t2) /\
        map eventAndNesting (emitted t1 t2) = [(tr2Event_RegionLeave, Some n)].
Proof.
  split.
  - unfold levelInRange, GoInt.MaxInt. simpl. lia.
  - apply (Region_nesting_level (sysAt 5)
             (regionContext (sysAt 1) Background) "fetch" "bundle" NewTrace2).
    unfold levelInRange, GoInt.MaxInt. simpl. lia.
Defined.

(** The contexts the facade builds from [context.Background()] keep the
    level of a region below the length of their chain, hence within the
    range [Region_nesting_level] asks for. *)
Lemma levelBounded_Background : levelBounded Background.
Proof. exact I. Qed.

Lemma levelBounded_inRange ctx :
  levelBounded ctx -> (Z.of_nat (depth ctx) <= GoInt.MaxInt)%Z ->
  levelInRange ctx.
Proof.
  unfold levelBounded, levelInRange.
  destruct (regionLevel ctx); [lia | trivial].
Qed.

Lemma levelBounded_sharedFields sys ctx :
  levelBounded ctx -> levelBounded (fst (sharedFields sys ctx)).
Proof.
  unfold levelBounded. rewrite sharedFields_regionLevel.
  pose proof (isAncestor_depth _ _ (sharedFields_isAncestor sys ctx)).
  destruct (regionLevel ctx); [lia | trivial].
Qed.

Lemma levelBounded_regionContext sys ctx :
  levelBounded ctx -> (Z.of_nat (depth ctx) <= GoInt.MaxInt)%Z ->
  levelBounded (regionContext sys ctx).
Proof.
  intros Hb Hd. pose proof (levelBounded_inRange ctx Hb Hd) as Hr.
  pose proof (isAncestor_depth _ _ (sharedFields_isAncestor sys ctx)) as Hdepth.
  unfold levelBounded. rewrite regionLevel_regionContext.
  rewrite enterRegion_level, sharedFields_regionLevel.
  rewrite <- (enterRegion_level sys ctx), (enterRegion_inRange sys ctx Hr).
  unfold regionContext, nextLevel, levelBounded in *. simpl depth.
  destruct (regionLevel ctx); lia.
Qed.

Lemma regionContext_isAncestor sys ctx : isAncestor ctx (regionContext sys ctx).
Proof.
  unfold regionContext. simpl. right. apply sharedFields_isAncestor.
Qed.

Lemma regionContext_fresh sys ctx : regionContext sys ctx <> ctx.
Proof.
  intros Heq.
  pose proof (isAncestor_depth _ _ (sharedFields_isAncestor sys ctx)) as H.
  apply (f_equal depth) in Heq. unfold regionContext in Heq. simpl in Heq. lia.
Qed.

Lemma regionContext_sid sys ctx :
  getContextValue_uuid (regionContext sys ctx) sidId =
  (true, snd (getOrSetContextValue_uuid ctx sidId (uuid_New sys))).
Proof.
  unfold regionContext, getContextValue_uuid at 1. simpl.
  unfold sharedFields, getOrSetContextValue_uuid.
  destruct (getContextValue_uuid ctx sidId) as [[|] value] eqn:Hsid; simpl.
  - destruct (runtime_Caller sys) as [[f l] |]; simpl;
      unfold getContextValue_uuid in Hsid;
      destruct (Value ctx (pkgKey sidId)) as [[u | r | n] |];
      try discriminate Hsid; injection Hsid as ->; reflexivity.
  - destruct (runtime_Caller sys) as [[f l] |]; reflexivity.
Qed.

(** C6: deriving a nested region from a context [ctx] returns a new context
    built on top of the chain of [ctx], which it leaves as it is: the bindings
    of other packages and the session id show through, the region state
    bound in the new context is a copy of its own (the level of [ctx]
    incremented, the time of the call), the recorder only receives one
    record, and a sibling derived from [ctx] at any other moment, on any
    state of the recorder, is given the same level as this one, whatever has
    been derived from [ctx] in between. *)
Theorem Region_derives_without_cross_talk :
  forall sys ctx category label t,
  exists ctx' leave t',
    Region sys ctx category label t = Done ((ctx', leave), t') /\
    ctx' <> ctx /\
    isAncestor ctx ctx' /\
    (forall n, Value ctx' (foreignKey n) = Value ctx (foreignKey n)) /\
    getContextValue_uuid ctx' sidId =
      (true, snd (getOrSetContextValue_uuid ctx sidId (uuid_New sys))) /\
    getContextValue_region ctx' parentRegionId =
      (true, mkRegion (match regionLevel ctx with
                       | None => 0%Z
                       | Some n => GoInt.int (n + 1)
                       end) (time_Now sys)) /\
    lastChildId t' = lastChildId t /\
    length (emitted t t') = 1 /\
    (forall sys2 category2 label2 t2, exists sibling leave2 t2',
        Region sys2 ctx category2 label2 t2 = Done ((sibling, leave2), t2') /\
        regionLevel sibling = regionLevel ctx') /\
    (forall sys3 category3 label3 t3, exists child leave3 t3',
        Region sys3 ctx' category3 label3 t3 = Done ((child, leave3), t3') /\
        isAncestor ctx' child /\ isAncestor ctx child).
Proof.
  intros sys ctx category label t.
  destruct (Region_run sys ctx category label t) as (leave & Hrun & _).
  exists (regionContext sys ctx), leave. eexists. split; [exact Hrun |].
  split; [apply regionContext_fresh |].
  split; [apply regionContext_isAncestor |].
  split.
  { intros n. unfold regionContext. simpl.
    apply sharedFields_Value. discriminate. }
  split; [apply regionContext_sid |].
  split.
  { unfold regionContext, getContextValue_region. simpl.
    rewrite <- sharedFields_regionLevel with (sys := sys).
    rewrite <- enterRegion_level with (sys := sys).
    pose proof (enterRegion_tStart sys (fst (sharedFields sys ctx))) as Ht.
    destruct (enterRegion sys (fst (sharedFields sys ctx))) as [lv ts].
    simpl in *. now rewrite Ht. }
  split; [reflexivity |].
  split; [rewrite emitted_app; reflexivity |].
  split.
  - intros sys2 category2 label2 t2.
    destruct (Region_run sys2 ctx category2 label2 t2) as (leave2 & Hrun2 & _).
    exists (regionContext sys2 ctx), leave2. eexists. split; [exact Hrun2 |].
    rewrite !regionLevel_regionContext, !enterRegion_level,
      !sharedFields_regionLevel. reflexivity.
  - intros sys3 category3 label3 t3.
    destruct (Region_run sys3 (regionContext sys ctx) category3 label3 t3)
      as (leave3 & Hrun3 & _).
    eexists _, leave3, _. split; [exact Hrun3 |].
    split; [apply regionContext_isAncestor |].
    set (c1 := regionContext sys ctx).
    assert (Hanc : isAncestor ctx c1) by apply regionContext_isAncestor.
    unfold regionContext at 1. simpl. right.
    destruct (sharedFields_ctx sys3 c1) as [-> | [_ ->]].
    + exact Hanc.
    + simpl. right. exact Hanc.
Qed.


(** ** The file:line column *)

Lemma length_append (s1 s2 : string) :
  String.length (s1 ++ s2)%string = String.length s1 + String.length s2.
Proof. induction s1 as [| c s1 IH]; simpl; [reflexivity | now rewrite IH]. Qed.

Lemma length_substring_prefix (s : string) : forall n,
  n <= String.length s -> String.length (String.substring 0 n s) = n.
Proof.
  induction s as [| c s IH]; intros [| n] H; simpl in *; try reflexivity.
  - lia.
  - rewrite IH; [reflexivity | lia].
Qed.

(** The cut replaces the last three bytes by dots: whatever its length, the
    string keeps it. *)
Lemma truncateFileLine_length fl :
  String.length (truncateFileLine fl) = String.length fl.
Proof.
  unfold truncateFileLine, tr2Enc_Perf_FileLineWidth.
  destruct (Nat.ltb_spec 28 (String.length fl)) as [H | H]; [| reflexivity].
  rewrite length_append, length_substring_prefix; simpl; lia.
Qed.

Lemma padRight_length_ge {lib : GoLib} width s :
  String.length s <= String.length (padRight width s).
Proof. unfold padRight. rewrite length_append. lia. Qed.

(** Every file:line string longer than the column is rendered longer than
    the column. *)
Lemma fileLineColumn_overflows {lib : GoLib} fl :
  tr2Enc_Perf_FileLineWidth < String.length fl ->
  tr2Enc_Perf_FileLineWidth < String.length (fileLineColumn fl).
Proof.
  intros H. unfold fileLineColumn.
  pose proof (padRight_length_ge tr2Enc_Perf_FileLineWidth
                (truncateFileLine fl)) as Hpad.
  rewrite truncateFileLine_length in Hpad. lia.
Qed.

(** C4, evaluated on the code: a file:line string of length 35 is rendered
    on 35 characters, not 28.  The encoder replaces its last three bytes by
    "..." and keeps the rest, in both revisions; the whole line of an entry
    whose file and line make up that string shows the overlong column. *)
Theorem fileLine_of_length_35_keeps_length_35 :
  String.length fileLine35 = 35 /\
  truncateFileLine fileLine35 = "internal_pkg_daemon_launchd.go:1..."%string /\
  String.length (@fileLineColumn plainLib fileLine35) = 35 /\
  snd (@Perf.EncodeEntry plainLib (Perf.NewTr2PerfEncoder false)
         (mkEntry InfoLevel 7 tr2Event_CmdName)
         (longFileLine ++ [zap_String tr2Field_Name "init"]))
  = Buffer ("7 internal_pkg_daemon_launchd.go:1... | d0 | "
            ++ "main                     | cmd_name     |     | "
            ++ "          |           |              | init"
            ++ newline)%string /\
  @EarlyPerf.EncodeEntry plainLib (mkEntry InfoLevel 7 tr2Event_CmdName)
         (longFileLine ++ [zap_String tr2Field_Name "init"])
  = Buffer ("7 internal_pkg_daemon_launchd.go:1... | d0 | "
            ++ "main                     | cmd_name     |     | "
            ++ "          |           |              | "
            ++ newline)%string.
Proof. repeat split; vm_compute; reflexivity. Qed.

(** ** Required fields of the performance-table encoder *)

Lemma AddTo_lookup_ne f (m : gmap string MapValue) k :
  Key f <> k -> Perf.AddTo f m !! k = m !! k.
Proof.
  intros H. unfold Perf.AddTo.
  destruct (Val f); apply lookup_insert_ne; exact H.
Qed.

Lemma addFields_lookup_absent fields : forall (m : gmap string MapValue) k,
  hasKey k fields = false -> Perf.addFields fields m !! k = m !! k.
Proof.
  unfold Perf.addFields, hasKey.
  induction fields as [| f fields IH]; intros m k H; simpl in *;
    [reflexivity |].
  apply orb_false_iff in H as [Hf Hrest].
  rewrite IH by exact Hrest.
  apply AddTo_lookup_ne. now apply String.eqb_neq.
Qed.

Ltac lookup_step :=
  match goal with
  | H : ?m !! ?k = _ |- context [?m !! ?k] => rewrite H
  | |- context [?m !! ?k] => destruct (m !! k) eqn:?
  end; cbn [Perf.andThen].

Ltac name_missing :=
  unfold Perf.getRequiredField, Perf.getField; cbn [Perf.andThen];
  repeat lookup_step;
  try (eexists; split; [eassumption | reflexivity]).

(** With a field of its table missing, the summary of an event is the error
    that names a missing field: the first one [getEventLog] asks for. *)
Lemma getEventLog_missing {lib : GoLib} (m : gmap string MapValue) event f :
  In f (requiredFields event) -> m !! f = None ->
  exists g, m !! g = None /\
            Perf.getEventLog m event = Perf.Err (Perf.missingFieldError g).
Proof.
  intros Hin Hmiss. revert Hin. unfold requiredFields, Perf.getEventLog.
  destruct (String.eqb event tr2Event_CmdName).
  { intros [<- | []]. name_missing. }
  destruct (String.eqb_spec event tr2Event_Error) as [-> | _].
  { simpl. intros []. }
  destruct (String.eqb event tr2Event_ChildStart).
  { intros [<- | [<- | [<- | []]]]; name_missing. }
  destruct (String.eqb event tr2Event_ChildReady).
  { intros [<- | [<- | [<- | []]]]; name_missing. }
  destruct (String.eqb event tr2Event_ChildExit).
  { intros [<- | [<- | [<- | []]]]; name_missing. }
  destruct (String.eqb_spec event tr2Event_RegionEnter) as [-> | _].
  { simpl. intros []. }
  destruct (String.eqb_spec event tr2Event_RegionLeave) as [-> | _].
  { simpl. intros []. }
  cbn [orb].
  destruct (String.eqb event tr2Event_Exit || String.eqb event tr2Event_AtExit).
  { intros [<- | []]. name_missing. }
  intros [].
Qed.

Lemma elapsedColumn_crash {lib : GoLib} (m : gmap string MapValue) k :
  match Perf.elapsedColumn m k with
  | Perf.Ok _ => True
  | Perf.Err _ => False
  | Perf.Crash _ =>
      match m !! k with None | Some (MDuration _) => true | _ => false end
      = false
  end.
Proof.
  unfold Perf.elapsedColumn, Perf.getField.
  destruct (m !! k) as [[] |]; simpl; auto.
Qed.

Lemma nestingDots_crash (m : gmap string MapValue) :
  match Perf.nestingDots m with
  | Perf.Ok _ => True
  | Perf.Err _ => False
  | Perf.Crash _ =>
      match m !! tr2Field_Nesting with
      | None => true
      | Some (MInt n) => (0 <=? n)%Z
      | _ => false
      end = false
  end.
Proof.
  unfold Perf.nestingDots, Perf.getField.
  destruct (m !! tr2Field_Nesting) as [[s | z | z | z | b | d | l] |];
    simpl; auto.
  destruct (Z.ltb_spec z 0); simpl; auto.
  apply Z.leb_gt. assumption.
Qed.

Lemma getRequiredField_cases (m : gmap string MapValue) k :
  match Perf.getRequiredField m k with
  | Perf.Ok _ => True
  | Perf.Err e => e = Perf.missingFieldError k /\ m !! k = None
  | Perf.Crash _ => False
  end.
Proof.
  unfold Perf.getRequiredField, Perf.getField.
  destruct (m !! k); auto.
Qed.

(** The line of an entry whose event misses a required field in the map:
    no text, but the error naming a missing field, or the failed type
    assertion of an ill-typed column. *)
Lemma encodeLine_missing {lib : GoLib} (m : gmap string MapValue) brief ent f :
  In f (requiredFields (entMessage ent)) -> m !! f = None ->
  (exists g, m !! g = None /\
             Perf.encodeLine m brief ent = Perf.Err (Perf.missingFieldError g))
  \/ (columnsWellTyped m = false /\
      exists r, Perf.encodeLine m brief ent = Perf.Crash r).
Proof.
  intros Hin Hmiss.
  destruct (getEventLog_missing m (entMessage ent) f Hin Hmiss)
    as (g & Hg & Hlog).
  unfold Perf.encodeLine.
  match goal with
  | |- context [Perf.andThen _ ?k] => set (tail := k)
  end.
  assert (Htail : forall buffer,
             (exists g, m !! g = None /\
                        tail buffer = Perf.Err (Perf.missingFieldError g))
             \/ (columnsWellTyped m = false /\
                 exists r, tail buffer = Perf.Crash r)).
  { intros buffer. subst tail. cbv beta.
    pose proof (getRequiredField_cases m tr2Field_Thread) as Hthread.
    destruct (Perf.getRequiredField m tr2Field_Thread) as [val | e | r];
      cbn [Perf.andThen]; [| | contradiction].
    2:{ destruct Hthread as [-> Hnone]. left. eauto. }
    pose proof (elapsedColumn_crash m tr2Field_TAbs) as Habs.
    destruct (Perf.elapsedColumn m tr2Field_TAbs) as [tAbs | e | r];
      cbn [Perf.andThen]; [| contradiction |].
    2:{ right. split; [| eexists; reflexivity]. unfold columnsWellTyped.
        now rewrite Habs. }
    pose proof (elapsedColumn_crash m tr2Field_TRel) as Hrel.
    destruct (Perf.elapsedColumn m tr2Field_TRel) as [tRel | e | r];
      cbn [Perf.andThen]; [| contradiction |].
    2:{ right. split; [| eexists; reflexivity]. unfold columnsWellTyped.
        rewrite Hrel. now rewrite andb_false_r. }
    pose proof (nestingDots_crash m) as Hnest.
    destruct (Perf.nestingDots m) as [nesting | e | r];
      cbn [Perf.andThen]; [| contradiction |].
    2:{ right. split; [| eexists; reflexivity]. unfold columnsWellTyped.
        rewrite Hnest. now rewrite andb_false_r. }
    rewrite Hlog. cbn [Perf.andThen]. left.
    eexists; split; [eassumption | reflexivity]. }
  clearbody tail.
  destruct brief; cbn [negb Perf.andThen]; [apply Htail |].
  pose proof (getRequiredField_cases m tr2Field_File) as Hfile.
  destruct (Perf.getRequiredField m tr2Field_File) as [file | e | r];
    cbn [Perf.andThen]; [| | contradiction].
  2:{ destruct Hfile as [-> Hnone]. left. eauto. }
  pose proof (getRequiredField_cases m tr2Field_Line) as Hline.
  destruct (Perf.getRequiredField m tr2Field_Line) as [line | e | r];
    cbn [Perf.andThen]; [| | contradiction].
  2:{ destruct Hline as [-> Hnone]. left. eauto. }
  apply Htail.
Qed.

(** C2, as stated, fails at "start": the encoder has no required field for
    that event, and a "start" entry without [argv] is rendered. *)
Lemma perf_start_without_argv_is_encoded :
  In tr2Field_Argv (requiredFields_spec tr2Event_Start) /\
  hasKey tr2Field_Argv startWithoutArgv = false /\
  snd (@Perf.EncodeEntry plainLib (Perf.NewTr2PerfEncoder false)
         (mkEntry InfoLevel 7 tr2Event_Start) startWithoutArgv)
  = Buffer ("7 init.go:42                   | d0 | "
            ++ "main                     | start        |     | "
            ++ "7 |           |              | "
            ++ newline)%string.
Proof.
  split; [left; reflexivity |]. split; vm_compute; reflexivity.
Qed.

(** C2, amended: for every event kind K among cmd_name, child_start,
    child_ready, child_exit, exit and atexit, and every field set that misses
    a field of K's required set (cmd_name: name; child_start: child_id,
    child_class, argv; child_ready: child_id, pid, ready; child_exit:
    child_id, pid, code; exit/atexit: code) which the field map of the
    encoder does not hold either, performance-table encoding returns no
    buffer and nothing is written to the sink: it fails with the error
    "missing required field '<name>'" naming an absent field, unless the
    type assertion on an ill-typed t_abs, t_rel or nesting stops it first. *)
Theorem perf_missing_required_field_fails :
  forall (lib : GoLib) (t : Perf.tr2PerfEncoder) (ent : Entry)
         (fields : list Field) (f : string) (sink : list string),
    In f (requiredFields (entMessage ent)) ->
    Perf.Fields t !! f = None ->
    hasKey f fields = false ->
    let m := Perf.addFields fields (Perf.Fields t) in
    ((exists g, m !! g = None /\
                snd (Perf.EncodeEntry t ent fields)
                = Failed (rawError ("missing required field '" ++ g ++ "'")))
     \/ (columnsWellTyped m = false /\
         exists r, snd (Perf.EncodeEntry t ent fields) = Crashed r))
    /\ match Zap.Write (Zap.NewCore (Zap.FieldMapPerfEncoder t) sink)
               ent fields with
       | Done (c, err) => Zap.out c = sink /\ err <> None
       | Panicked _ => columnsWellTyped m = false
       end.
Proof.
  intros lib t ent fields f sink Hin Hmap Hfields m. subst m.
  unfold Zap.Write. cbn [Zap.enc Zap.out].
  unfold Zap.EncodeEntry, Perf.EncodeEntry.
  set (m := Perf.addFields fields (Perf.Fields t)).
  assert (Hmiss : m !! f = None).
  { subst m. rewrite addFields_lookup_absent by exact Hfields. exact Hmap. }
  destruct (encodeLine_missing m (Perf.isBrief t) ent f Hin Hmiss)
    as [(g & Hg & ->) | (Hcols & r & ->)]; simpl.
  - split; [left; exists g; split; [exact Hg | reflexivity] |].
    split; [reflexivity | discriminate].
  - split; [right; split; [exact Hcols | eexists; reflexivity] |].
    exact Hcols.
Qed.

Lemma perf_missing_required_field_fails_witness :
  In tr2Field_Pid (requiredFields tr2Event_ChildExit) /\
  Perf.Fields (Perf.NewTr2PerfEncoder false) !! tr2Field_Pid = None /\
  hasKey tr2Field_Pid childExitWithoutPid = false /\
  let t := Perf.NewTr2PerfEncoder false in
  let ent := mkEntry DebugLevel 9 tr2Event_ChildExit in
  let m := Perf.addFields childExitWithoutPid (Perf.Fields t) in
  ((exists g, m !! g = None /\
              snd (@Perf.EncodeEntry plainLib t ent childExitWithoutPid)
              = Failed (rawError ("missing required field '" ++ g ++ "'")))
   \/ (columnsWellTyped m = false /\
       exists r, snd (@Perf.EncodeEntry plainLib t ent childExitWithoutPid)
                 = Crashed r))
  /\ match @Zap.Write plainLib (Zap.NewCore (Zap.FieldMapPerfEncoder t) [])
             ent childExitWithoutPid with
     | Done (c, err) => Zap.out c = [] /\ err <> None
     | Panicked _ => columnsWellTyped m = false
     end.
Proof.
  split; [right; left; reflexivity |].
  split; [reflexivity |].
  split; [reflexivity |].
  apply (perf_missing_required_field_fails plainLib
           (Perf.NewTr2PerfEncoder false)
           (mkEntry DebugLevel 9 tr2Event_ChildExit)
           childExitWithoutPid tr2Field_Pid []).
  - right; left; reflexivity.
  - reflexivity.
  - reflexivity.
Defined.

(** The fields the encoder keeps from one entry stand in for those missing
    in a later one: after a "child_ready" with its pid, a "child_exit"
    without pid is rendered with the pid of the former. *)
Lemma perf_encoder_keeps_fields :
  let ready := snd (sharedFields (sysAt 8) Background)
               ++ [zap_Int32 tr2Field_ChildId 0; zap_Int tr2Field_Pid 4711;
                   zap_String tr2Field_Ready "ready"] in
  let t1 := fst (@Perf.EncodeEntry plainLib (Perf.NewTr2PerfEncoder true)
                   (mkEntry DebugLevel 8 tr2Event_ChildReady) ready) in
  snd (@Perf.EncodeEntry plainLib t1
         (mkEntry DebugLevel 9 tr2Event_ChildExit) childExitWithoutPid)
  = Buffer ("d0 | main                     | child_exit   |     | "
            ++ "          | 5 |              | [ch0] pid:4711 code:0"
            ++ newline)%string.
Proof. vm_compute. reflexivity. Qed.

(** ** The event channel *)

Lemma logStart_run sys ctx t :
  logStart sys ctx t =
  Done (fst (sharedFields sys ctx),
        mkTrace2 (logger t ++
                  [mkRecord InfoLevel (time_Now sys) tr2Event_Start
                     (with_ (withTime sys (snd (sharedFields sys ctx)))
                        [zap_Strings tr2Field_Argv (os_Args sys)])])
                 (lastChildId t)).
Proof.
  unfold logStart, bind. destruct (sharedFields sys ctx) as [c shared].
  reflexivity.
Qed.

(** C1, evaluated on the code: the only core of the logger is the one of the
    event channel, and its encoder is the performance-table encoder, the JSON
    encoder built before it being dropped.  A record that lacks a field the
    performance table needs (here "start" when the caller's file and line
    could not be determined) is therefore not written to the event channel:
    the encoder's error goes to the error output of the logger and the sink
    stays empty, whereas the JSON encoder returns a buffer for it.  And what
    the event channel receives for a record that is accepted (here a
    "child_exit" without its pid) is a line of the performance table. *)
Theorem event_channel_is_rendered_by_perf_encoder :
  Zap.enc createTrace2EventCore = Zap.ConfigPerfEncoder /\
  map Zap.enc (Zap.cores createTrace2ZapLogger) = [Zap.ConfigPerfEncoder] /\
  (forall lib : GoLib,
   exists ctx t r,
     logStart sysNoCaller Background NewTrace2 = Done (ctx, t) /\
     logger t = [r] /\
     recEvent r = tr2Event_Start /\
     Zap.logAll createTrace2ZapLogger (logger t)
       = Done (Zap.New [Zap.NewCore Zap.ConfigPerfEncoder []]
                       [rawError "could not find log field 'file'"]) /\
     eventChannel t = Done [[]] /\
     snd (Zap.EncodeEntry Zap.JSONEncoder
            (mkEntry (recLevel r) (recTime r) (recEvent r)) (recFields r))
       = Buffer (json_EncodeEntry
                   (mkEntry (recLevel r) (recTime r) (recEvent r))
                   (recFields r))) /\
  @Zap.log plainLib createTrace2ZapLogger
     (mkRecord DebugLevel 9 tr2Event_ChildExit childExitWithoutPid)
  = Done (Zap.New
            [Zap.NewCore Zap.ConfigPerfEncoder
               [("9 init.go:42                   | d0 | "
                 ++ "main                     | child_exit   |     | "
                 ++ "          | 5 |              | code:0" ++ newline)%string]]
            []).
Proof.
  split; [reflexivity |]. split; [reflexivity |]. split.
  - intros lib. rewrite logStart_run. eexists _, _, _.
    split; [reflexivity |]. split; [reflexivity |].
    repeat split; reflexivity.
  - vm_compute. reflexivity.
Qed.

(** * Further properties of the code *)

(** ** Sessions *)

Lemma sharedFields_run sys ctx :
  sharedFields sys ctx =
  (match sessionOf ctx with
   | Some _ => ctx
   | None => WithValue ctx (pkgKey sidId) (valUUID (uuid_New sys))
   end,
   [zap_String tr2Field_Sid (sidFor sys ctx);
    zap_String tr2Field_Thread "main"]
   ++ match runtime_Caller sys with
      | Some (fileName, lineNum) =>
          [zap_String tr2Field_File (filepath_Base fileName);
           zap_Int tr2Field_Line lineNum]
      | None => []
      end).
Proof.
  unfold sharedFields, getOrSetContextValue_uuid, sidFor, sessionOf.
  destruct (getContextValue_uuid ctx sidId) as [[|] sid];
    destruct (runtime_Caller sys) as [[f l] |]; reflexivity.
Qed.

Lemma sessionOf_sharedFields sys ctx :
  sessionOf (fst (sharedFields sys ctx)) = Some (sidFor sys ctx).
Proof.
  rewrite sharedFields_run. unfold sidFor. simpl.
  destruct (sessionOf ctx) as [sid |] eqn:Hs; [exact Hs | reflexivity].
Qed.

(** X1: the session id is assigned once.  The context [sharedFields]
    returns holds a session; on such a context every later call, whatever
    [uuid.New] would give it, leaves the context as it is and writes the same
    session id as the first field. *)
Theorem session_is_assigned_once :
  forall sys1 sys2 ctx,
    let ctx1 := fst (sharedFields sys1 ctx) in
    sessionOf ctx1 = Some (sidFor sys1 ctx) /\
    fst (sharedFields sys2 ctx1) = ctx1 /\
    fieldString tr2Field_Sid (snd (sharedFields sys2 ctx1))
      = Some (sidFor sys1 ctx) /\
    fieldString tr2Field_Sid (snd (sharedFields sys1 ctx))
      = Some (sidFor sys1 ctx) /\
    (forall sid, sessionOf ctx = Some sid -> sidFor sys1 ctx = sid /\ ctx1 = ctx).
Proof.
  intros sys1 sys2 ctx ctx1.
  pose proof (sessionOf_sharedFields sys1 ctx) as H1. fold ctx1 in H1.
  split; [exact H1 |].
  assert (H2 : sidFor sys2 ctx1 = sidFor sys1 ctx).
  { unfold sidFor at 1. now rewrite H1. }
  rewrite (sharedFields_run sys2 ctx1), H1, H2.
  split; [reflexivity |]. split; [reflexivity |]. split.
  - rewrite sharedFields_run. reflexivity.
  - intros sid Hsid. subst ctx1. rewrite sharedFields_run.
    unfold sidFor. rewrite Hsid. auto.
Qed.
Lemma fieldString_shared sys ctx rest :
  fieldString tr2Field_Sid (snd (sharedFields sys ctx) ++ rest)
    = Some (sidFor sys ctx) /\
  fieldString tr2Field_Thread (snd (sharedFields sys ctx) ++ rest)
    = Some "main"%string.
Proof. rewrite sharedFields_run. split; reflexivity. Qed.




Lemma LogCommand_run sys ctx name t :
  LogCommand sys ctx name t =
  Done (fst (sharedFields sys ctx),
        mkTrace2 (logger t ++
                  [mkRecord InfoLevel (time_Now sys) tr2Event_CmdName
                     (with_ (snd (sharedFields sys ctx))
                        [zap_String tr2Field_Name name])])
                 (lastChildId t)).
Proof.
  unfold LogCommand, bind. destruct (sharedFields sys ctx) as [c shared].
  reflexivity.
Qed.

Lemma logExit_run sys ctx code t :
  logExit sys ctx code t =
  Done (tt,
        mkTrace2 (logger t ++
                  [mkRecord InfoLevel (time_Now sys) tr2Event_Exit
                     (withTime sys (with_ (snd (sharedFields sys ctx))
                                      [zap_Int tr2Field_Code code]));
                   mkRecord InfoLevel (time_Now sys) tr2Event_AtExit
                     (withTime sys (with_ (snd (sharedFields sys ctx))
                                      [zap_Int tr2Field_Code code]))])
                 (lastChildId t)).
Proof.
  unfold logExit, bind. destruct (sharedFields sys ctx) as [c shared].
  unfold logger_Info, logger_log. simpl. now rewrite <- app_assoc.
Qed.

Lemma fieldInt_code sys ctx code :
  fieldInt tr2Field_Code
    (withTime sys (with_ (snd (sharedFields sys ctx))
                     [zap_Int tr2Field_Code code])) = Some code.
Proof.
  unfold withTime, with_. rewrite <- app_assoc.
  rewrite fieldInt_app_skip; [reflexivity |].
  destruct (sharedFields_keys sys ctx) as [-> | ->]; simpl;
    intros H; repeat destruct H as [H | H]; try discriminate H; exact H.
Qed.

Lemma emitted_grown t t' l : logger t' = logger t ++ l -> emitted t t' = l.
Proof.
  intros H. unfold emitted. rewrite H, skipn_app, skipn_all, Nat.sub_diag.
  reflexivity.
Qed.

(** X3: [logStart], then [LogCommand] on the context it returns, then
    [logExit] on the context that returns: the logger receives "start",
    "cmd_name", "exit" and "atexit", in this order, all four with one session
    id, and the last two with the exit code. *)
Theorem start_command_exit_share_one_session :
  forall sys1 sys2 sys3 ctx name code t,
  exists ctx1 ctx2 t1 t2 t3,
    logStart sys1 ctx t = Done (ctx1, t1) /\
    LogCommand sys2 ctx1 name t1 = Done (ctx2, t2) /\
    logExit sys3 ctx2 code t2 = Done (tt, t3) /\
    map recEvent (emitted t t3)
      = [tr2Event_Start; tr2Event_CmdName; tr2Event_Exit; tr2Event_AtExit] /\
    map recordSid (emitted t t3) = repeat (Some (sidFor sys1 ctx)) 4 /\
    map (fun r => fieldInt tr2Field_Code (recFields r)) (emitted t2 t3)
      = [Some code; Some code].
Proof.
  intros. rewrite logStart_run. eexists _, _, _, _, _.
  split; [reflexivity |]. rewrite LogCommand_run. split; [reflexivity |].
  rewrite logExit_run. split; [reflexivity |].
  pose proof (sessionOf_sharedFields sys1 ctx) as H1.
  assert (H2 : fst (sharedFields sys2 (fst (sharedFields sys1 ctx)))
               = fst (sharedFields sys1 ctx)).
  { rewrite (sharedFields_run sys2), H1. reflexivity. }
  rewrite H2.
  assert (E2 : sidFor sys2 (fst (sharedFields sys1 ctx)) = sidFor sys1 ctx).
  { unfold sidFor at 1. now rewrite H1. }
  assert (E3 : sidFor sys3 (fst (sharedFields sys1 ctx)) = sidFor sys1 ctx).
  { unfold sidFor at 1. now rewrite H1. }
  split; [| split].
  - erewrite emitted_grown; [| simpl; rewrite <- !app_assoc; reflexivity].
    reflexivity.
  - erewrite emitted_grown; [| simpl; rewrite <- !app_assoc; reflexivity].
    simpl. unfold recordSid. simpl recFields. unfold withTime, with_.
    rewrite <- !app_assoc.
    rewrite (proj1 (fieldString_shared sys1 ctx _)).
    rewrite (proj1 (fieldString_shared sys2 _ _)).
    rewrite !(proj1 (fieldString_shared sys3 _ _)).
    now rewrite E2, E3.
  - rewrite emitted_app. simpl. now rewrite !fieldInt_code.
Qed.

(** ** Regions, child processes and termination *)

Lemma fieldString_app_skip k l1 l2 :
  ~ In k (map Key l1) -> fieldString k (l1 ++ l2) = fieldString k l2.
Proof.
  induction l1 as [| f l1 IH]; simpl; intros H; [reflexivity |].
  destruct (String.eqb_spec (Key f) k) as [Heq | Hne].
  - exfalso. apply H. now left.
  - apply IH. intros Hin. apply H. now right.
Qed.

(** X4: the "region_leave" record the closure of [Region] emits repeats the
    "region_enter" record (session, thread, caller, t_abs, nesting, category
    and label, as captured at entry) and adds, after the nesting, the time
    elapsed since the entry; the closure does so each time it is called. *)
Theorem region_leave_repeats_enter :
  forall sys ctx category label t,
  exists ctx' leave t' captured n,
    Region sys ctx category label t = Done ((ctx', leave), t') /\
    regionLevel ctx' = Some n /\
    emitted t t'
      = [mkRecord DebugLevel (time_Now sys) tr2Event_RegionEnter
           (captured ++ [zap_Int tr2Field_Nesting n;
                         zap_String tr2Field_Category category;
                         zap_String tr2Field_Label label])] /\
    fieldString tr2Field_Sid captured = Some (sidFor sys ctx) /\
    forall now t1, exists t2,
      leave now t1 = Done (tt, t2) /\
      lastChildId t2 = lastChildId t1 /\
      emitted t1 t2
        = [mkRecord DebugLevel now tr2Event_RegionLeave
             (captured ++ [zap_Int tr2Field_Nesting n;
                           zap_Duration tr2Field_TRel (now - time_Now sys);
                           zap_String tr2Field_Category category;
                           zap_String tr2Field_Label label])].
Proof.
  intros sys ctx category label t.
  destruct (Region_run sys ctx category label t) as (leave & Hrun & Hleave).
  exists (regionContext sys ctx), leave. eexists.
  exists (withTime sys (snd (sharedFields sys ctx))).
  exists (level (enterRegion sys (fst (sharedFields sys ctx)))).
  split; [exact Hrun |]. split; [apply regionLevel_regionContext |].
  split.
  { rewrite emitted_app. unfold regionRecord, with_, withNesting.
    now rewrite <- app_assoc. }
  split.
  { unfold withTime. apply fieldString_shared. }
  intros now t1. eexists. split; [apply Hleave |]. split; [reflexivity |].
  rewrite emitted_app. unfold regionRecord, with_, withNesting.
  rewrite enterRegion_tStart. now rewrite <- !app_assoc.
Qed.

(** X5: the records of one invocation of [ChildProcess] belong together:
    "child_start", "child_ready" and "child_exit" carry the child id the
    invocation was given; "child_ready" carries the pid of the process, the
    status "ready" or "error" and the arguments the command has when the
    callback is called; "child_exit" carries the pid, the exit code and the
    time since [ChildProcess] was called.  Called while the command has no
    process state yet, the exit callback panics and logs nothing. *)
Theorem child_records_share_the_child_id :
  forall sys ctx cmd t,
  exists ready exit t1 id,
    ChildProcess sys ctx cmd t = Done ((ready, exit), t1) /\
    id = GoInt.int32 (lastChildId t + 1) /\
    lastChildId t1 = id /\
    map (fun r => (recEvent r, fieldInt tr2Field_ChildId (recFields r)))
        (emitted t t1) = [(tr2Event_ChildStart, Some id)] /\
    (forall args pid st execError now t2, exists t3 r,
        ready (mkCmd args (Some pid) st) execError now t2 = Done (tt, t3) /\
        emitted t2 t3 = [r] /\
        recEvent r = tr2Event_ChildReady /\
        fieldInt tr2Field_ChildId (recFields r) = Some id /\
        fieldInt tr2Field_Pid (recFields r) = Some pid /\
        fieldString tr2Field_Ready (recFields r)
          = Some (match execError with
                  | Some _ => "error"
                  | None => "ready"
                  end)%string /\
        In (zap_Strings tr2Field_Argv args) (recFields r)) /\
    (forall args p pid code now t4, exists t5 r,
        exit (mkCmd args p (Some (pid, code))) now t4 = Done (tt, t5) /\
        emitted t4 t5 = [r] /\
        recEvent r = tr2Event_ChildExit /\
        fieldInt tr2Field_ChildId (recFields r) = Some id /\
        fieldInt tr2Field_Pid (recFields r) = Some pid /\
        fieldInt tr2Field_Code (recFields r) = Some code /\
        In (zap_Duration tr2Field_TRel (now - time_Now sys)) (recFields r)) /\
    (forall args p now t4,
        exit (mkCmd args p None) now t4 = Panicked nilDereference).
Proof.
  intros sys ctx cmd t. rewrite ChildProcess_run. eexists _, _, _, _.
  split; [reflexivity |]. split; [reflexivity |]. split; [reflexivity |].
  assert (Hskip : forall k rest,
             ~ In k [tr2Field_Sid; tr2Field_Thread; tr2Field_File;
                     tr2Field_Line] ->
             fieldInt k (snd (sharedFields sys ctx) ++ rest) = fieldInt k rest).
  { intros k rest Hk. apply fieldInt_app_skip.
    destruct (sharedFields_keys sys ctx) as [-> | ->]; simpl in *; tauto. }
  assert (Hskips : forall k rest,
             ~ In k [tr2Field_Sid; tr2Field_Thread; tr2Field_File;
                     tr2Field_Line] ->
             fieldString k (snd (sharedFields sys ctx) ++ rest)
             = fieldString k rest).
  { intros k rest Hk. apply fieldString_app_skip.
    destruct (sharedFields_keys sys ctx) as [-> | ->]; simpl in *; tauto. }
  assert (Hno : forall k : string,
             In k [tr2Field_ChildId; tr2Field_Pid; tr2Field_Code;
                   tr2Field_Ready] ->
             ~ In k [tr2Field_Sid; tr2Field_Thread; tr2Field_File;
                     tr2Field_Line]).
  { intros k Hk Hin. simpl in Hk, Hin.
    repeat destruct Hk as [<- | Hk]; try contradiction;
      repeat destruct Hin as [Hin | Hin]; try discriminate Hin;
      contradiction. }
  split.
  { rewrite emitted_app. simpl. unfold with_.
    rewrite Hskip by (apply Hno; simpl; auto). reflexivity. }
  split; [| split].
  - intros args pid st execError now t2. eexists _, _.
    split; [reflexivity |]. split; [apply emitted_app |].
    cbn [recEvent recFields]. unfold with_.
    split; [reflexivity |].
    rewrite !Hskip, Hskips by (apply Hno; simpl; auto).
    split; [reflexivity |]. split; [reflexivity |].
    split; [destruct execError; reflexivity |].
    apply in_or_app. right. simpl. auto.
  - intros args p pid code now t4. eexists _, _.
    split; [reflexivity |]. split; [apply emitted_app |].
    cbn [recEvent recFields]. unfold with_.
    split; [reflexivity |].
    rewrite !Hskip by (apply Hno; simpl; auto).
    split; [reflexivity |]. split; [reflexivity |]. split; [reflexivity |].
    apply in_or_app. right. simpl. auto.
  - reflexivity.
Qed.

(** X6: [Fatal] and [Fatalf] do not trace what they are given: like
    [Exit(ctx, 1)] they hand "exit" and "atexit" with the code 1 to the logger,
    no "error" record, and end the process with status 1; [Exit] does the same
    with the code it is given. *)
Theorem Fatal_exits_without_error_record :
  forall sys ctx err format a code t,
  exists t1 t',
    Fatal sys ctx err t = osExit 1 t1 /\
    Fatalf sys ctx format a t = osExit 1 t1 /\
    Exit sys ctx code t = osExit code t' /\
    map (fun r => (recEvent r, fieldInt tr2Field_Code (recFields r)))
        (emitted t t1)
      = [(tr2Event_Exit, Some 1%Z); (tr2Event_AtExit, Some 1%Z)] /\
    map (fun r => (recEvent r, fieldInt tr2Field_Code (recFields r)))
        (emitted t t')
      = [(tr2Event_Exit, Some code); (tr2Event_AtExit, Some code)] /\
    List.filter isErrorRecord (emitted t t1) = [] /\
    lastChildId t1 = lastChildId t.
Proof.
  intros. unfold Fatal, Fatalf, Exit. rewrite !logExit_run.
  eexists _, _. split; [reflexivity |]. split; [reflexivity |].
  split; [reflexivity |]. rewrite !emitted_app. simpl.
  rewrite !fieldInt_code. repeat split; reflexivity.
Qed.

(** ** The sink of a channel *)




(** X7: the resolver answers with the console exactly for the values that
    [strconv.Atoi] reads as 1, and with the discarding sink exactly for the
    empty value and the other integers; in both cases it does not touch the
    file system. *)
Theorem sink_console_and_discard :
  forall h envKey calls,
    (getTrace2WriteSyncer h envKey = Done (lockedStderr, calls)
     <-> strconv_Atoi (os_Getenv h envKey) = Some 1%Z /\ calls = []) /\
    (getTrace2WriteSyncer h envKey = Done (discard, calls)
     <-> (os_Getenv h envKey = EmptyString \/
          exists n, strconv_Atoi (os_Getenv h envKey) = Some n /\ n <> 1%Z)
         /\ calls = []).
Proof.
  intros h envKey calls. unfold getTrace2WriteSyncer.
  destruct (strconv_Atoi (os_Getenv h envKey)) as [n |] eqn:Hatoi.
  - destruct (Z.eqb_spec n 1) as [-> | Hne]; split; split.
    + intros H. injection H as <-. auto.
    + intros [_ ->]. reflexivity.
    + intros H. discriminate H.
    + intros [[Hempty | (m & Hm & Hne)] _].
      * rewrite Hempty in Hatoi. discriminate Hatoi.
      * injection Hm as <-. contradiction.
    + intros H. discriminate H.
    + intros [H _]. injection H as ->. contradiction.
    + intros H. injection H as <-. split; [right; eauto | reflexivity].
    + intros [_ ->]. reflexivity.
  - destruct (String.eqb_spec (os_Getenv h envKey) EmptyString) as [He | He];
      simpl.
    + split; split.
      * intros H. discriminate H.
      * intros [H _]. discriminate H.
      * intros H. injection H as <-. auto.
      * intros [_ ->]. reflexivity.
    + destruct (match os_Stat h (os_Getenv h envKey) with
                | Some true => _
                | _ => _
                end) as [filename cs].
      destruct (zap_Open h filename); split; split;
        try (intros H; discriminate H);
        try (intros [H _]; discriminate H);
        intros [[H | (m & H & _)] _]; try contradiction; discriminate H.
Qed.



(** ** The field map of the encoder *)

Lemma AddTo_insert f (m : gmap string MapValue) :
  Perf.AddTo f m = <[Key f := mapValueOf (Val f)]> m.
Proof. unfold Perf.AddTo. destruct (Val f); reflexivity. Qed.

Lemma addFields_cons f fields (m : gmap string MapValue) :
  Perf.addFields (f :: fields) m = Perf.addFields fields (Perf.AddTo f m).
Proof. reflexivity. Qed.

Lemma addFields_app f1 f2 (m : gmap string MapValue) :
  Perf.addFields (f1 ++ f2) m = Perf.addFields f2 (Perf.addFields f1 m).
Proof. unfold Perf.addFields. apply fold_left_app. Qed.

Lemma lastValue_hasKey k fields :
  hasKey k fields = true <-> exists v, lastValue k fields = Some v.
Proof.
  unfold hasKey. induction fields as [| f fields IH]; simpl.
  - split; [discriminate | intros [v H]; discriminate H].
  - destruct (lastValue k fields) as [v |].
    + split; [eauto |]. intros _. rewrite (proj2 IH) by eauto.
      apply orb_true_r.
    + destruct (String.eqb (Key f) k); simpl; [split; eauto |].
      rewrite IH. reflexivity.
Qed.

(** X9: the encoder finds every field it was given: after the fields of an
    entry have been added, a key holds the value of the last field with that
    key, stored with its dynamic type, and a key no field has holds what the
    map held before; [getRequiredField] fails exactly for the keys neither
    the entry nor the map provides. *)
Theorem added_fields_are_found :
  forall (fields : list Field) (m : gmap string MapValue) (k : string),
    Perf.getField (Perf.addFields fields m) k
    = match lastValue k fields with
      | Some v => Some (mapValueOf v)
      | None => m !! k
      end /\
    (Perf.getRequiredField (Perf.addFields fields m) k
     = Perf.Err (Perf.missingFieldError k)
     <-> hasKey k fields = false /\ m !! k = None).
Proof.
  intros fields m k.
  assert (Hget : Perf.getField (Perf.addFields fields m) k
                 = match lastValue k fields with
                   | Some v => Some (mapValueOf v)
                   | None => m !! k
                   end).
  { unfold Perf.getField. revert m.
    induction fields as [| f fields IH]; intros m; [reflexivity |].
    rewrite addFields_cons, IH. simpl.
    destruct (lastValue k fields) as [v |]; [reflexivity |].
    rewrite AddTo_insert.
    destruct (String.eqb_spec (Key f) k) as [-> | Hne].
    - apply lookup_insert_eq.
    - now apply lookup_insert_ne. }
  split; [exact Hget |].
  unfold Perf.getRequiredField. rewrite Hget.
  pose proof (lastValue_hasKey k fields) as Hk.
  destruct (lastValue k fields) as [v |].
  - split; [intros H; discriminate H |].
    intros [Hno _]. rewrite (proj2 Hk) in Hno by eauto. discriminate Hno.
  - assert (Hfalse : hasKey k fields = false).
    { destruct (hasKey k fields); [| reflexivity].
      destruct (proj1 Hk eq_refl) as [v Hv]. discriminate Hv. }
    destruct (m !! k); split; try (intros H; discriminate H); auto.
    intros [_ H]. discriminate H.
Qed.

(** X10: the encoder keeps the fields of the entries it has encoded: an
    entry encoded after another is rendered as if the fields of the first
    had been passed in front of its own.  A clone starts from an empty map
    again, like a new encoder. *)
Theorem encoder_accumulates_fields :
  forall (lib : GoLib) t ent1 fields1 ent2 fields2,
    let t1 := fst (Perf.EncodeEntry t ent1 fields1) in
    Perf.EncodeEntry t1 ent2 fields2
      = Perf.EncodeEntry t ent2 (fields1 ++ fields2) /\
    Perf.EncodeEntry (Perf_Clone t1) ent2 fields2
      = Perf.EncodeEntry (Perf.NewTr2PerfEncoder (Perf.isBrief t))
          ent2 fields2.
Proof.
  intros lib t ent1 fields1 ent2 fields2 t1.
  assert (Hf : Perf.Fields t1 = Perf.addFields fields1 (Perf.Fields t)
               /\ Perf.isBrief t1 = Perf.isBrief t).
  { subst t1. unfold Perf.EncodeEntry.
    destruct (Perf.encodeLine _ _ _); split; reflexivity. }
  destruct Hf as [Hfields Hbrief]. split.
  - unfold Perf.EncodeEntry.
    now rewrite Hfields, Hbrief, addFields_app.
  - unfold Perf.EncodeEntry, Perf_Clone, Perf.NewTr2PerfEncoder. simpl.
    now rewrite Hbrief.
Qed.

(** ** When the encoders return a line *)

Lemma elapsedColumn_ok {lib : GoLib} (m : gmap string MapValue) k :
  match m !! k with None | Some (MDuration _) => true | _ => false end = true ->
  exists s, Perf.elapsedColumn m k = Perf.Ok s.
Proof.
  unfold Perf.elapsedColumn, Perf.getField.
  destruct (m !! k) as [[] |]; intros H; try discriminate H; simpl; eauto.
Qed.

Lemma nestingDots_ok (m : gmap string MapValue) :
  match m !! tr2Field_Nesting with
  | None => true
  | Some (MInt n) => (0 <=? n)%Z
  | _ => false
  end = true ->
  exists s, Perf.nestingDots m = Perf.Ok s.
Proof.
  unfold Perf.nestingDots, Perf.getField.
  destruct (m !! tr2Field_Nesting) as [[s | z | z | z | b | d | l] |];
    intros H; try discriminate H; simpl; eauto.
  apply Z.leb_le in H. destruct (Z.ltb_spec z 0); [lia | eauto].
Qed.

Lemma getRequiredField_present (m : gmap string MapValue) k :
  mapHas m k = true -> exists v, m !! k = Some v /\
                                 Perf.getRequiredField m k = Perf.Ok v.
Proof.
  unfold mapHas, Perf.getRequiredField, Perf.getField.
  destruct (m !! k); [eauto | discriminate].
Qed.

Ltac present_step H :=
  match goal with
  | |- context [Perf.getRequiredField ?m ?k] =>
      let v := fresh "v" in
      let Hv := fresh "Hv" in
      let Hr := fresh "Hr" in
      destruct (getRequiredField_present m k) as (v & Hv & Hr);
      [apply H; simpl; auto | rewrite Hr; cbn [Perf.andThen]]
  end.

(** With the fields of its table present and well typed, the summary of an
    event is defined. *)
Lemma getEventLog_present {lib : GoLib} (m : gmap string MapValue) event :
  (forall f, In f (requiredFields event) -> mapHas m f = true) ->
  summaryWellTyped m event = true ->
  exists s, Perf.getEventLog m event = Perf.Ok s.
Proof.
  unfold requiredFields, summaryWellTyped, Perf.getEventLog.
  destruct (String.eqb event tr2Event_CmdName).
  { intros H Htyped. present_step H. rewrite Hv in Htyped.
    destruct v; try discriminate Htyped. simpl. eauto. }
  destruct (String.eqb event tr2Event_Error).
  { intros _ Htyped. unfold Perf.getField.
    destruct (m !! tr2Field_Msg) as [[] |]; try discriminate Htyped;
      simpl; eauto. }
  destruct (String.eqb event tr2Event_ChildStart).
  { intros H Htyped. do 3 present_step H. rewrite Hv1 in Htyped.
    destruct (json_Marshal v1); [eauto | discriminate Htyped]. }
  destruct (String.eqb event tr2Event_ChildReady).
  { intros H _. do 3 present_step H. eauto. }
  destruct (String.eqb event tr2Event_ChildExit).
  { intros H _. do 3 present_step H. eauto. }
  destruct (String.eqb event tr2Event_RegionEnter
            || String.eqb event tr2Event_RegionLeave).
  { intros _ _. unfold Perf.getField.
    destruct (m !! tr2Field_Label); eauto. }
  destruct (String.eqb event tr2Event_Exit || String.eqb event tr2Event_AtExit).
  { intros H _. present_step H. eauto. }
  eauto.
Qed.

(** X11: the field-map encoder returns a line, ended by a newline, whenever
    the map (the fields kept plus those of the entry) holds the thread, the
    file and the line unless the encoder is brief, every field of the event's
    required set, and values of the asserted types in the columns and in
    the summary.  Together with the failure on a missing field this fixes
    when an entry is encoded. *)
Theorem perf_encodes_complete_entries :
  forall (lib : GoLib) (t : Perf.tr2PerfEncoder) (ent : Entry)
         (fields : list Field),
    let m := Perf.addFields fields (Perf.Fields t) in
    (Perf.isBrief t || mapHas m tr2Field_File && mapHas m tr2Field_Line) = true ->
    mapHas m tr2Field_Thread = true ->
    forallb (mapHas m) (requiredFields (entMessage ent)) = true ->
    columnsWellTyped m = true ->
    summaryWellTyped m (entMessage ent) = true ->
    exists line,
      Perf.EncodeEntry t ent fields
      = (Perf.mkEncoder m (Perf.isBrief t), Buffer (line ++ newline)).
Proof.
  intros lib t ent fields m Hfl Hthread Hreq Hcols Htyped.
  assert (Hline : exists line,
             Perf.encodeLine m (Perf.isBrief t) ent
             = Perf.Ok (line ++ newline)%string).
  { unfold Perf.encodeLine.
    destruct (getEventLog_present m (entMessage ent)) as [s Hs].
    { intros f Hf. rewrite forallb_forall in Hreq. now apply Hreq. }
    { exact Htyped. }
    unfold columnsWellTyped in Hcols.
    apply andb_true_iff in Hcols as [Hcols Hnest].
    apply andb_true_iff in Hcols as [Habs Hrel].
    destruct (elapsedColumn_ok m tr2Field_TAbs Habs) as [a Ha].
    destruct (elapsedColumn_ok m tr2Field_TRel Hrel) as [r Hr].
    destruct (nestingDots_ok m Hnest) as [d Hd].
    destruct (getRequiredField_present m tr2Field_Thread Hthread)
      as (th & _ & Hth).
    destruct (Perf.isBrief t); simpl negb; cbv iota.
    - cbn [Perf.andThen]. rewrite Hth. cbn [Perf.andThen].
      rewrite Ha. cbn [Perf.andThen]. rewrite Hr. cbn [Perf.andThen].
      rewrite Hd. cbn [Perf.andThen]. rewrite Hs. cbn [Perf.andThen].
      eexists. reflexivity.
    - simpl in Hfl. apply andb_true_iff in Hfl as [Hfile Hlin].
      destruct (getRequiredField_present m tr2Field_File Hfile)
        as (fv & _ & Hfv).
      destruct (getRequiredField_present m tr2Field_Line Hlin)
        as (lv & _ & Hlv).
      rewrite Hfv. cbn [Perf.andThen]. rewrite Hlv. cbn [Perf.andThen].
      rewrite Hth. cbn [Perf.andThen].
      rewrite Ha. cbn [Perf.andThen]. rewrite Hr. cbn [Perf.andThen].
      rewrite Hd. cbn [Perf.andThen]. rewrite Hs. cbn [Perf.andThen].
      eexists. reflexivity. }
  destruct Hline as [line Hline]. exists line.
  unfold Perf.EncodeEntry. fold m. now rewrite Hline.
Qed.

(** ** The earlier encoder *)

(** X12: [getField] of the earlier encoder returns the first field with the
    key, whatever follows it, and the error naming the key exactly when no
    field has it. *)
Theorem early_getField_first_match :
  forall (k : string) (fields : list Field),
    match EarlyPerf.getField k fields with
    | inr f =>
        exists before after,
          fields = before ++ f :: after /\ Key f = k /\
          hasKey k before = false
    | inl err =>
        err = rawError ("could not find log field '" ++ k ++ "'")%string /\
        hasKey k fields = false
    end.
Proof.
  intros k fields. unfold hasKey.
  induction fields as [| f fields IH]; simpl; [auto |].
  destruct (String.eqb_spec (Key f) k) as [Heq | Hne].
  - exists [], fields. auto.
  - destruct (EarlyPerf.getField k fields) as [err | g].
    + exact IH.
    + destruct IH as (before & after & -> & Hk & Hbefore).
      exists (f :: before), after. simpl.
      apply String.eqb_neq in Hne. rewrite Hne. auto.
Qed.

Lemma early_getField_hasKey k fields :
  match EarlyPerf.getField k fields with
  | inr _ => hasKey k fields = true
  | inl err => err = EarlyPerf.notFoundError k /\ hasKey k fields = false
  end.
Proof.
  unfold hasKey. induction fields as [| f fields IH]; simpl; [auto |].
  destruct (String.eqb (Key f) k); [reflexivity |].
  destruct (EarlyPerf.getField k fields); exact IH.
Qed.

(** X13: the earlier encoder has no required fields by event.  For every
    event it returns a line, ended by a newline, when the fields hold "file",
    "line" and "thread" (and no negative nesting); it fails exactly when one
    of the three is missing, with the error that names one that is; a
    negative nesting makes it panic. *)
Theorem early_encoder_requires_file_line_thread :
  forall (lib : GoLib) (ent : Entry) (fields : list Field),
    match EarlyPerf.EncodeEntry ent fields with
    | Buffer buf =>
        hasKey "file" fields = true /\ hasKey "line" fields = true /\
        hasKey "thread" fields = true /\ nestingNegative fields = false /\
        exists line, buf = (line ++ newline)%string
    | Failed err =>
        exists k, In k ["file"; "line"; "thread"]%string /\
                  hasKey k fields = false /\
                  err = rawError ("could not find log field '" ++ k ++ "'")%string
    | Crashed _ =>
        hasKey "file" fields = true /\ hasKey "line" fields = true /\
        hasKey "thread" fields = true /\ nestingNegative fields = true
    end.
Proof.
  intros lib ent fields. unfold EarlyPerf.EncodeEntry, nestingNegative.
  pose proof (early_getField_hasKey "file" fields) as Hfile.
  destruct (EarlyPerf.getField "file" fields) as [e | file].
  { destruct Hfile as [-> Hno]. exists "file"%string. simpl. auto. }
  pose proof (early_getField_hasKey "line" fields) as Hline.
  destruct (EarlyPerf.getField "line" fields) as [e | line].
  { destruct Hline as [-> Hno]. exists "line"%string. simpl. auto. }
  pose proof (early_getField_hasKey "thread" fields) as Hthread.
  destruct (EarlyPerf.getField "thread" fields) as [e | thread].
  { destruct Hthread as [-> Hno]. exists "thread"%string. simpl. auto. }
  destruct (EarlyPerf.getField "nesting" fields) as [e | nesting].
  - repeat split; auto. eexists. reflexivity.
  - destruct (EarlyPerf.Field_Integer nesting <? 0)%Z.
    + auto.
    + repeat split; auto. eexists. reflexivity.
Qed.

Lemma length_spaces n : String.length (spaces n) = n.
Proof.
  unfold spaces. induction n as [| n IH]; simpl; [reflexivity |].
  now rewrite IH.
Qed.

(** X14: a file:line string that fits the column (at most 28 bytes, one
    column each) is not cut: the column is the string followed by spaces,
    28 characters in all. *)
Theorem fileLine_that_fits_is_padded :
  forall (lib : GoLib) (fl : string),
    String.length fl <= tr2Enc_Perf_FileLineWidth ->
    utf8_RuneCountInString fl = String.length fl ->
    fileLineColumn fl
      = (fl ++ spaces (tr2Enc_Perf_FileLineWidth - String.length fl))%string /\
    String.length (fileLineColumn fl) = tr2Enc_Perf_FileLineWidth.
Proof.
  intros lib fl Hlen Hrunes.
  unfold fileLineColumn, truncateFileLine, padRight.
  destruct (Nat.ltb_spec tr2Enc_Perf_FileLineWidth (String.length fl));
    [lia |].
  rewrite Hrunes. split; [reflexivity |].
  rewrite length_append, length_spaces. lia.
Qed.

Lemma perf_encodes_complete_entries_witness :
  let t := Perf.NewTr2PerfEncoder false in
  let ent := mkEntry DebugLevel 9 tr2Event_ChildExit in
  let m := Perf.addFields childExitComplete (Perf.Fields t) in
  exists line,
    @Perf.EncodeEntry plainLib t ent childExitComplete
    = (Perf.mkEncoder m (Perf.isBrief t), Buffer (line ++ newline)).
Proof.
  apply (perf_encodes_complete_entries plainLib (Perf.NewTr2PerfEncoder false)
           (mkEntry DebugLevel 9 tr2Event_ChildExit) childExitComplete);
    vm_compute; reflexivity.
Defined.

Lemma fileLine_that_fits_is_padded_witness :
  String.length "init.go:42" <= tr2Enc_Perf_FileLineWidth /\
  @utf8_RuneCountInString plainLib "init.go:42" = String.length "init.go:42" /\
  @fileLineColumn plainLib "init.go:42"
    = ("init.go:42" ++ spaces (tr2Enc_Perf_FileLineWidth
                               - String.length "init.go:42"))%string /\
  String.length (@fileLineColumn plainLib "init.go:42")
    = tr2Enc_Perf_FileLineWidth.
Proof.
  split; [vm_compute; lia |]. split; [reflexivity |].
  apply (fileLine_that_fits_is_padded plainLib "init.go:42");
    [vm_compute; lia | reflexivity].
Defined.

(** ** From the facade to the event channel *)

Lemma sharedFields_known sys ctx fileName lineNum :
  runtime_Caller sys = Some (fileName, lineNum) ->
  snd (sharedFields sys ctx)
  = [zap_String tr2Field_Sid (sidFor sys ctx);
     zap_String tr2Field_Thread "main";
     zap_String tr2Field_File (filepath_Base fileName);
     zap_Int tr2Field_Line lineNum].
Proof. intros H. rewrite sharedFields_run, H. reflexivity. Qed.

Lemma levelInRangeb_spec ctx : levelInRangeb ctx = true -> levelInRange ctx.
Proof.
  unfold levelInRangeb, levelInRange.
  destruct (regionLevel ctx) as [n |]; [| trivial].
  intros H. apply andb_true_iff in H as [H1 H2].
  apply Z.leb_le in H1. apply Z.ltb_lt in H2. lia.
Qed.

(** The records of a well-formed call have what the encoder needs. *)
Lemma perform_renderable fmt_Sprintf c t :
  callWellFormed c = true ->
  exists recs k,
    perform fmt_Sprintf c t = Done (tt, mkTrace2 (logger t ++ recs) k) /\
    forallb renderable recs = true.
Proof.
  unfold callWellFormed, callerKnown. intros H.
  apply andb_true_iff in H as [Hcaller Hlevel].
  destruct (runtime_Caller (callSys c)) as [[fileName lineNum] |] eqn:Hc;
    [clear Hcaller | discriminate Hcaller].
  destruct c as [sys ctx | sys ctx name | sys ctx category label
                | sys ctx cmd | sys ctx err | sys ctx format a];
    cbn [perform callSys callCtx] in *; unfold bind.
  - rewrite logStart_run. eexists _, _. split; [reflexivity |].
    unfold renderable. simpl. rewrite (sharedFields_known _ _ _ _ Hc).
    reflexivity.
  - rewrite LogCommand_run. eexists _, _. split; [reflexivity |].
    unfold renderable. simpl. rewrite (sharedFields_known _ _ _ _ Hc).
    reflexivity.
  - destruct (Region_run sys ctx category label t) as (leave & Hrun & _).
    rewrite Hrun. eexists _, _. split; [reflexivity |].
    unfold renderable, regionRecord. simpl.
    rewrite (sharedFields_known _ _ _ _ Hc).
    assert (Hn : level (enterRegion sys (fst (sharedFields sys ctx)))
                 = nextLevel ctx).
    { rewrite enterRegion_level, sharedFields_regionLevel.
      rewrite <- (enterRegion_level sys ctx).
      apply enterRegion_inRange, levelInRangeb_spec, Hlevel. }
    rewrite Hn.
    assert (Hpos : (nextLevel ctx <? 0)%Z = false).
    { apply Z.ltb_ge. apply levelInRangeb_spec in Hlevel.
      unfold nextLevel, levelInRange in *.
      destruct (regionLevel ctx); lia. }
    unfold nestingNegative. simpl. unfold EarlyPerf.Field_Integer. simpl.
    now rewrite Hpos.
  - rewrite ChildProcess_run. eexists _, _. split; [reflexivity |].
    unfold renderable. simpl. rewrite (sharedFields_known _ _ _ _ Hc).
    reflexivity.
  - destruct (isLoggedError err) eqn:Hlog.
    + rewrite (Error_logged _ _ _ _ Hlog). exists [], (lastChildId t).
      rewrite trace_eta. split; reflexivity.
    + rewrite (Error_raw _ _ _ _ Hlog). eexists _, _. split; [reflexivity |].
      unfold renderable. simpl. rewrite (sharedFields_known _ _ _ _ Hc).
      reflexivity.
  - rewrite Errorf_run. destruct (existsb anyIsLoggedError a).
    + eexists _, _. split; [reflexivity |].
      unfold renderable. simpl. rewrite (sharedFields_known _ _ _ _ Hc).
      reflexivity.
    + exists [], (lastChildId t). rewrite trace_eta. split; reflexivity.
Qed.

Lemma performAll_renderable fmt_Sprintf (calls : list call) : forall t,
  forallb callWellFormed calls = true ->
  exists recs k,
    performAll fmt_Sprintf calls t
      = Done (tt, mkTrace2 (logger t ++ recs) k) /\
    forallb renderable recs = true.
Proof.
  induction calls as [| c calls IH]; intros t Hwf.
  - exists [], (lastChildId t). rewrite trace_eta. split; reflexivity.
  - simpl in Hwf. apply andb_true_iff in Hwf as [Hc Hrest].
    destruct (perform_renderable fmt_Sprintf c t Hc) as (recs1 & k1 & Hrun & H1).
    simpl. unfold bind. rewrite Hrun.
    destruct (IH (mkTrace2 (logger t ++ recs1) k1) Hrest)
      as (recs2 & k & Hrun' & H2).
    rewrite Hrun'. simpl. exists (recs1 ++ recs2), k.
    rewrite app_assoc. split; [reflexivity |].
    rewrite forallb_app. now rewrite H1, H2.
Qed.

Lemma renderable_encoded {lib : GoLib} r :
  renderable r = true ->
  exists buf,
    EarlyPerf.EncodeEntry (mkEntry (recLevel r) (recTime r) (recEvent r))
      (recFields r) = Buffer buf.
Proof.
  unfold renderable, nestingNegative, EarlyPerf.EncodeEntry. intros H.
  apply andb_true_iff in H as [H Hnest].
  apply andb_true_iff in H as [H Hthread].
  apply andb_true_iff in H as [Hfile Hline].
  pose proof (early_getField_hasKey "file" (recFields r)) as Hf.
  destruct (EarlyPerf.getField "file" (recFields r)) as [e | file];
    [destruct Hf as [_ Hf]; congruence |].
  pose proof (early_getField_hasKey "line" (recFields r)) as Hl.
  destruct (EarlyPerf.getField "line" (recFields r)) as [e | line];
    [destruct Hl as [_ Hl]; congruence |].
  pose proof (early_getField_hasKey "thread" (recFields r)) as Ht.
  destruct (EarlyPerf.getField "thread" (recFields r)) as [e | thread];
    [destruct Ht as [_ Ht]; congruence |].
  destruct (EarlyPerf.getField "nesting" (recFields r)) as [e | nesting].
  - eexists. reflexivity.
  - destruct (EarlyPerf.Field_Integer nesting <? 0)%Z; [discriminate Hnest |].
    eexists. reflexivity.
Qed.

Lemma logAll_renderable {lib : GoLib} recs : forall sink errs,
  forallb renderable recs = true ->
  exists lines,
    Zap.logAll (Zap.New [Zap.NewCore Zap.ConfigPerfEncoder sink] errs) recs
    = Done (Zap.New [Zap.NewCore Zap.ConfigPerfEncoder (sink ++ lines)] errs)
    /\ length lines = length recs.
Proof.
  induction recs as [| r recs IH]; intros sink errs H.
  - exists []. simpl. now rewrite app_nil_r.
  - simpl in H. apply andb_true_iff in H as [Hr Hrest].
    destruct (renderable_encoded r Hr) as [buf Hbuf].
    simpl. unfold Zap.log. simpl. unfold Zap.Write. simpl.
    rewrite Hbuf. simpl. rewrite app_nil_r.
    destruct (IH (sink ++ [buf]) errs Hrest) as (lines & Hrun & Hlen).
    rewrite Hrun. exists (buf :: lines).
    rewrite <- app_assoc. simpl. split; [reflexivity | now rewrite Hlen].
Qed.

(** X15: when the runtime knows the caller of every operation (and the
    contexts hold levels a region can have), the event channel receives one
    line for each record the facade hands to the logger over a lifetime of
    the recorder: no record is refused by the encoder of the channel, and
    nothing goes to the error output. *)
Theorem event_channel_renders_every_record :
  forall (lib : GoLib) fmt_Sprintf (calls : list call),
    forallb callWellFormed calls = true ->
    exists t' lines,
      performAll fmt_Sprintf calls NewTrace2 = Done (tt, t') /\
      Zap.logAll createTrace2ZapLogger (logger t')
        = Done (Zap.New [Zap.NewCore Zap.ConfigPerfEncoder lines] []) /\
      eventChannel t' = Done [lines] /\
      length lines = length (logger t').
Proof.
  intros lib fmt_Sprintf calls Hwf.
  destruct (performAll_renderable fmt_Sprintf calls NewTrace2 Hwf)
    as (recs & k & Hrun & Hrecs).
  destruct (logAll_renderable recs [] [] Hrecs) as (lines & Hlog & Hlen).
  eexists _, lines. split; [exact Hrun |].
  unfold eventChannel, createTrace2ZapLogger, createTrace2EventCore.
  simpl. rewrite Hlog. auto.
Qed.

Lemma event_channel_renders_every_record_witness :
  forallb callWellFormed threeChildren = true /\
  exists t' lines,
    performAll plainSprintf threeChildren NewTrace2 = Done (tt, t') /\
    @Zap.logAll plainLib createTrace2ZapLogger (logger t')
      = Done (Zap.New [Zap.NewCore Zap.ConfigPerfEncoder lines] []) /\
    @eventChannel plainLib t' = Done [lines] /\
    length lines = length (logger t').
Proof.
  split; [reflexivity |].
  apply (event_channel_renders_every_record plainLib plainSprintf
           threeChildren).
  reflexivity.
Defined.

(** ** Routes of the web server *)

Lemma append_nil_r (s : string) : (s ++ EmptyString)%string = s.
Proof.
  induction s as [| c s IH]; [reflexivity |].
  change (String c (s ++ EmptyString)%string = String c s). now rewrite IH.
Qed.

Lemma append_assoc (a b c : string) :
  ((a ++ b) ++ c)%string = (a ++ (b ++ c))%string.
Proof.
  induction a as [| x a IH]; [reflexivity |].
  change (String x ((a ++ b) ++ c)%string = String x (a ++ (b ++ c))%string).
  now rewrite IH.
Qed.

Lemma slashFree_app a b : slashFree (a ++ b) = slashFree a && slashFree b.
Proof.
  unfold slashFree. induction a as [| c a IH]; simpl; [reflexivity |].
  rewrite IH. now rewrite andb_assoc.
Qed.

(** The characters of an element extend the field under way. *)
Lemma FieldsFunc_from_element e : forall field rest,
  slashFree e = true ->
  FieldsFunc_from isSlash field (e ++ rest)
  = FieldsFunc_from isSlash (field ++ e) rest.
Proof.
  unfold slashFree. induction e as [| c e IH]; intros field rest H; simpl in *.
  - now rewrite append_nil_r.
  - apply andb_true_iff in H as [Hc He].
    destruct (isSlash c); [discriminate Hc |].
    rewrite IH by exact He. now rewrite append_assoc.
Qed.

(** A '/' ends the field under way. *)
Lemma FieldsFunc_from_slash field rest :
  FieldsFunc_from isSlash field (String "/" rest)
  = FieldsFunc_from isSlash field EmptyString
    ++ FieldsFunc_from isSlash EmptyString rest.
Proof. simpl. destruct field; reflexivity. Qed.

(** The fields of a string with a '/' in it are those before the '/'
    followed by those after it. *)
Lemma FieldsFunc_from_split a : forall field b,
  FieldsFunc_from isSlash field (a ++ String "/" b)
  = FieldsFunc_from isSlash field a ++ FieldsFunc_from isSlash EmptyString b.
Proof.
  induction a as [| c a IH]; intros field b.
  - apply FieldsFunc_from_slash.
  - simpl. destruct (isSlash c).
    + destruct field; simpl; now rewrite IH.
    + apply IH.
Qed.

Lemma FieldsFunc_split a b :
  strings_FieldsFunc (a ++ String "/" b) isSlash
  = strings_FieldsFunc a isSlash ++ strings_FieldsFunc b isSlash.
Proof. apply FieldsFunc_from_split. Qed.

Lemma FieldsFunc_element e :
  isElement e = true -> strings_FieldsFunc e isSlash = [e].
Proof.
  unfold isElement, strings_FieldsFunc. intros H.
  apply andb_true_iff in H as [Hne Hfree].
  rewrite <- (append_nil_r e) at 1.
  rewrite FieldsFunc_from_element by exact Hfree. simpl.
  destruct e; [discriminate Hne | reflexivity].
Qed.

Lemma FieldsFunc_from_elements s : forall field,
  slashFree field = true ->
  List.Forall (fun e => isElement e = true) (FieldsFunc_from isSlash field s).
Proof.
  induction s as [| c s IH]; intros field Hfield; simpl.
  - destruct field as [| d field]; constructor; [| constructor].
    unfold isElement. now rewrite Hfield.
  - destruct (isSlash c) eqn:Hc.
    + destruct field as [| d field]; [now apply IH |].
      constructor; [| now apply IH].
      unfold isElement. now rewrite Hfield.
    + apply IH. rewrite slashFree_app, Hfield. unfold slashFree. simpl.
      now rewrite Hc.
Qed.

Lemma parseRoute_fields path :
  parseRoute path
  = match strings_FieldsFunc path isSlash with
    | [] => inl (rawError "empty route")
    | [_] => inl (rawError "route has owner, but no repo")
    | [owner; repo] => inr (owner, repo, EmptyString)
    | [owner; repo; file] => inr (owner, repo, file)
    | _ => inl (rawError "path has depth exceeding three")
    end.
Proof. reflexivity. Qed.

Lemma parseRoute_file path :
  match parseRoute path with
  | inr (_, _, file) => file = EmptyString \/ isElement file = true
  | inl _ => True
  end.
Proof.
  rewrite parseRoute_fields.
  pose proof (FieldsFunc_from_elements path EmptyString eq_refl) as Hall.
  fold (strings_FieldsFunc path isSlash) in Hall.
  destruct (strings_FieldsFunc path isSlash)
    as [| o [| r [| f [| x l]]]]; simpl; auto.
  right. rewrite !List.Forall_cons_iff in Hall. tauto.
Qed.

(** X16: what [parseRoute] returns.  On success the owner and the
    repository are elements of the path, not empty and without a '/', and
    so is the file unless it is empty; the path then has two or three
    elements.  Otherwise the error tells whether the path has none, one or
    more than three. *)
Theorem parseRoute_returns_elements :
  forall path,
    match parseRoute path with
    | inr (owner, repo, file) =>
        isElement owner = true /\ isElement repo = true /\
        (file = EmptyString \/ isElement file = true) /\
        strings_FieldsFunc path isSlash
        = owner :: repo :: (if String.eqb file EmptyString then [] else [file])
    | inl err =>
        (err = rawError "empty route" /\
         strings_FieldsFunc path isSlash = []) \/
        (err = rawError "route has owner, but no repo" /\
         length (strings_FieldsFunc path isSlash) = 1) \/
        (err = rawError "path has depth exceeding three" /\
         3 < length (strings_FieldsFunc path isSlash))
    end.
Proof.
  intros path. rewrite parseRoute_fields.
  pose proof (FieldsFunc_from_elements path EmptyString eq_refl) as Hall.
  fold (strings_FieldsFunc path isSlash) in Hall.
  destruct (strings_FieldsFunc path isSlash)
    as [| o [| r [| f [| x l]]]]; simpl.
  - auto.
  - auto.
  - inversion Hall as [| ? ? Ho Hrest]; subst.
    inversion Hrest as [| ? ? Hr _]; subst. auto.
  - inversion Hall as [| ? ? Ho Hrest]; subst.
    inversion Hrest as [| ? ? Hr Hrest']; subst.
    inversion Hrest' as [| ? ? Hf _]; subst.
    assert (Hne : String.eqb f EmptyString = false).
    { unfold isElement in Hf. apply andb_true_iff in Hf as [Hf _].
      now apply negb_true_iff in Hf. }
    rewrite Hne. auto.
  - right. right. split; [reflexivity | lia].
Qed.

(** X17: '/' only separates.  A '/' in front of a path or behind it, and a
    '/' doubled inside it, do not change what [parseRoute] returns. *)
Theorem parseRoute_ignores_extra_slashes :
  forall a b,
    parseRoute (String "/" a) = parseRoute a /\
    parseRoute (a ++ "/") = parseRoute a /\
    parseRoute (a ++ String "/" (String "/" b))
      = parseRoute (a ++ String "/" b).
Proof.
  intros a b. rewrite !parseRoute_fields.
  assert (H1 : forall s, strings_FieldsFunc (String "/" s) isSlash
                         = strings_FieldsFunc s isSlash).
  { intros s. apply (FieldsFunc_split EmptyString s). }
  assert (H2 : strings_FieldsFunc (a ++ "/") isSlash
               = strings_FieldsFunc a isSlash).
  { rewrite FieldsFunc_split. apply app_nil_r. }
  assert (H3 : strings_FieldsFunc (a ++ String "/" (String "/" b)) isSlash
               = strings_FieldsFunc (a ++ String "/" b) isSlash).
  { rewrite !FieldsFunc_split. now rewrite H1. }
  now rewrite H1, H2, H3.
Qed.

Lemma parseRoute_of_elements owner repo :
  isElement owner = true -> isElement repo = true ->
  strings_FieldsFunc (owner ++ String "/" repo) isSlash = [owner; repo].
Proof.
  intros Ho Hr. rewrite FieldsFunc_split.
  now rewrite (FieldsFunc_element owner Ho), (FieldsFunc_element repo Hr).
Qed.

Lemma FieldsFunc_of_route owner repo file :
  isElement owner = true -> isElement repo = true ->
  isElement file = true ->
  strings_FieldsFunc (owner ++ String "/" (repo ++ String "/" file)) isSlash
  = [owner; repo; file].
Proof.
  intros Ho Hr Hf.
  rewrite FieldsFunc_split, (FieldsFunc_element owner Ho).
  rewrite FieldsFunc_split, (FieldsFunc_element repo Hr).
  now rewrite (FieldsFunc_element file Hf).
Qed.

(** X18: [parseRoute] reads back the route it is made for: for an owner, a
    repository and a file that are path elements, "owner/repo" gives the
    owner, the repository and no file, and "owner/repo/file" gives all
    three. *)
Theorem parseRoute_reads_route :
  forall owner repo file,
    isElement owner = true -> isElement repo = true ->
    isElement file = true ->
    parseRoute (owner ++ String "/" repo) = inr (owner, repo, EmptyString) /\
    parseRoute (owner ++ String "/" (repo ++ String "/" file))
      = inr (owner, repo, file).
Proof.
  intros owner repo file Ho Hr Hf. rewrite !parseRoute_fields.
  rewrite (parseRoute_of_elements owner repo Ho Hr).
  rewrite (FieldsFunc_of_route owner repo file Ho Hr Hf).
  split; reflexivity.
Qed.

(** ** What the web server answers *)

Lemma isElement_not_empty e : isElement e = true -> String.eqb e EmptyString = false.
Proof.
  unfold isElement. intros H. apply andb_true_iff in H as [H _].
  now apply negb_true_iff in H.
Qed.

(** X19: [serve] answers 200 exactly when the path parses to a route that is
    configured and the file can be read; the body is then the content of
    the file named by the directory of the repository, a '/' and one path
    element ("bundle-list" when the path names no file).  It answers 500
    exactly when the path parses and the repositories cannot be loaded, and
    404 otherwise; without 200, the body is empty. *)
Theorem serve_status :
  forall (GetRepositories : error + gmap string Repository)
         (os_ReadFile : string -> error + string) (path : string),
    let response := serve GetRepositories os_ReadFile path in
    (StatusCode response = StatusOK <->
     exists owner repo file repos repository name,
       parseRoute path = inr (owner, repo, file) /\
       GetRepositories = inr repos /\
       repos !! (owner ++ "/" ++ repo)%string = Some repository /\
       name = (if String.eqb file EmptyString then "bundle-list"%string
               else file) /\
       isElement name = true /\
       os_ReadFile (WebDir repository ++ "/" ++ name)%string
         = inr (Body response)) /\
    (StatusCode response = StatusInternalServerError <->
     (exists route, parseRoute path = inr route) /\
     exists err, GetRepositories = inl err) /\
    (StatusCode response = StatusOK \/ Body response = EmptyString) /\
    In (StatusCode response)
       [StatusOK; StatusNotFound; StatusInternalServerError].
Proof.
  intros GetRepositories os_ReadFile path response. subst response.
  unfold serve.
  pose proof (parseRoute_file path) as Hf.
  destruct (parseRoute path) as [err | [[owner repo] file]].
  { simpl. split; [| split; [| split; [auto | auto]]].
    - split; [discriminate |].
      intros (o & r & f & repos & rp & name & H & _). discriminate H.
    - split; [discriminate |]. intros [[route H] _]. discriminate H. }
  assert (Hname : isElement (if String.eqb file EmptyString
                             then "bundle-list"%string else file) = true).
  { destruct Hf as [-> | Hf]; [reflexivity |].
    now rewrite (isElement_not_empty file Hf). }
  destruct GetRepositories as [err | repos].
  { simpl. split; [| split; [| split; [auto | auto]]].
    - split; [discriminate |].
      intros (o & r & f & rs & rp & name & _ & H & _). discriminate H.
    - split; [eauto | reflexivity]. }
  destruct (repos !! (owner ++ "/" ++ repo)%string) as [repository |] eqn:Hrepo.
  2:{ simpl. split; [| split; [| split; [auto | auto]]].
      - split; [discriminate |].
        intros (o & r & f & rs & rp & name & H1 & H2 & H3 & _).
        injection H1 as <- <- <-. injection H2 as <-. congruence.
      - split; [discriminate |]. intros [_ [err H]]. discriminate H. }
  destruct (os_ReadFile _) as [err | data] eqn:Hread.
  - simpl. split; [| split; [| split; [auto | auto]]].
    + split; [discriminate |].
      intros (o & r & f & rs & rp & name & H1 & H2 & H3 & -> & _ & H4).
      injection H1 as <- <- <-. injection H2 as <-.
      rewrite Hrepo in H3. injection H3 as <-. congruence.
    + split; [discriminate |]. intros [_ [e H]]. discriminate H.
  - simpl. split; [| split; [| split; [auto | auto]]].
    + split; [| reflexivity]. intros _.
      exists owner, repo, file, repos, repository. eexists.
      repeat split; eauto.
    + split; [discriminate |]. intros [_ [e H]]. discriminate H.
Qed.

(** X20: a path that names no file is served like the one that names
    "bundle-list": for every owner and repository, whatever the
    repositories and the files are, the two answers are the same. *)
Theorem serve_defaults_to_bundle_list :
  forall (GetRepositories : error + gmap string Repository)
         (os_ReadFile : string -> error + string) (owner repo : string),
    isElement owner = true -> isElement repo = true ->
    serve GetRepositories os_ReadFile (owner ++ String "/" repo)
    = serve GetRepositories os_ReadFile
        (owner ++ String "/" (repo ++ String "/" "bundle-list")).
Proof.
  intros G R owner repo Ho Hr. unfold serve.
  rewrite !parseRoute_fields.
  rewrite (parseRoute_of_elements owner repo Ho Hr).
  rewrite (FieldsFunc_of_route owner repo "bundle-list" Ho Hr eq_refl).
  reflexivity.
Qed.

Lemma serve_defaults_to_bundle_list_witness :
  isElement "octo" = true /\ isElement "cat" = true /\
  serve someRepositories someFiles "octo/cat"
  = serve someRepositories someFiles "octo/cat/bundle-list".
Proof.
  split; [reflexivity |]. split; [reflexivity |].
  apply (serve_defaults_to_bundle_list someRepositories someFiles
           "octo" "cat"); reflexivity.
Defined.

Lemma parseRoute_reads_route_witness :
  isElement "octo" = true /\ isElement "cat" = true /\
  isElement "bundle-1.bundle" = true /\
  parseRoute "octo/cat" = inr ("octo", "cat", EmptyString)%string /\
  parseRoute "octo/cat/bundle-1.bundle"
    = inr ("octo", "cat", "bundle-1.bundle")%string.
Proof.
  split; [reflexivity |]. split; [reflexivity |]. split; [reflexivity |].
  apply (parseRoute_reads_route "octo" "cat" "bundle-1.bundle");
    reflexivity.
Defined.

(** ** The command executor *)

Lemma applyOption_valid cmd setting :
  match Executor.applyOption cmd setting with
  | Done cmd' =>
      Executor.validSetting setting = true /\
      Executor.Path cmd' = Executor.Path cmd /\
      Executor.Args cmd' = Executor.Args cmd /\
      Executor.Env cmd' = Executor.Env cmd ++ Executor.envOf setting /\
      Executor.Stdin cmd'
        = Executor.lastSetting Executor.stdinKey (Executor.Stdin cmd)
            [setting] /\
      Executor.Stdout cmd'
        = Executor.lastSetting Executor.stdoutKey (Executor.Stdout cmd)
            [setting] /\
      Executor.Stderr cmd'
        = Executor.lastSetting Executor.stderrKey (Executor.Stderr cmd)
            [setting]
  | Panicked _ => Executor.validSetting setting = false
  end.
Proof.
  destruct setting as [k v]. unfold Executor.applyOption,
    Executor.validSetting, Executor.envOf. simpl.
  destruct k; simpl.
  - destruct (Executor.isReader v); simpl; [| reflexivity].
    rewrite app_nil_r. repeat split; reflexivity.
  - destruct (Executor.isWriter v); simpl; [| reflexivity].
    rewrite app_nil_r. repeat split; reflexivity.
  - destruct (Executor.isWriter v); simpl; [| reflexivity].
    rewrite app_nil_r. repeat split; reflexivity.
  - destruct v; simpl; try reflexivity. repeat split; reflexivity.
  - reflexivity.
Qed.


(** X21: [applyOptions] ends normally exactly when every setting has a known
    key and a value of the type its key asks for, and panics otherwise.
    When it ends normally the command keeps its path and arguments, its
    environment is extended by the environments of all settings in their
    order, and each stream is the one of the last setting for it. *)
Theorem applyOptions_outcome :
  forall settings cmd,
    match Executor.applyOptions cmd settings with
    | Done cmd' =>
        forallb Executor.validSetting settings = true /\
        Executor.Path cmd' = Executor.Path cmd /\
        Executor.Args cmd' = Executor.Args cmd /\
        Executor.Env cmd'
          = Executor.Env cmd ++ List.flat_map Executor.envOf settings /\
        Executor.Stdin cmd'
          = Executor.lastSetting Executor.stdinKey (Executor.Stdin cmd)
              settings /\
        Executor.Stdout cmd'
          = Executor.lastSetting Executor.stdoutKey (Executor.Stdout cmd)
              settings /\
        Executor.Stderr cmd'
          = Executor.lastSetting Executor.stderrKey (Executor.Stderr cmd)
              settings
    | Panicked _ => forallb Executor.validSetting settings = false
    end.
Proof.
  induction settings as [| setting rest IH]; intros cmd.
  - simpl. rewrite app_nil_r. repeat split; reflexivity.
  - cbn [Executor.applyOptions forallb List.flat_map].
    pose proof (applyOption_valid cmd setting) as H1.
    destruct (Executor.applyOption cmd setting) as [cmd1 | r].
    + destruct H1 as (Hv & Hp & Ha & He & Hi & Ho & Hr).
      specialize (IH cmd1). rewrite Hv. cbn [andb].
      destruct (Executor.applyOptions cmd1 rest) as [cmd2 | r]; [| exact IH].
      destruct IH as (Hv2 & Hp2 & Ha2 & He2 & Hi2 & Ho2 & Hr2).
      split; [exact Hv2 |]. split; [congruence |]. split; [congruence |].
      split; [rewrite He2, He; now rewrite <- app_assoc |].
      cbn [Executor.lastSetting] in *.
      split; [congruence |]. split; congruence.
    + rewrite H1. reflexivity.
Qed.



(** ** The entry point *)

Lemma loop_unknown {World} (cmds : list (Main.Subcommand World)) name args w :
  (forall c, In c cmds -> Main.Name c <> name) ->
  Main.loop cmds name args w = Main.returned w.
Proof.
  induction cmds as [| c rest IH]; intros H; [reflexivity |].
  simpl. destruct (String.eqb_spec (Main.Name c) name) as [Heq | _].
  - exfalso. apply (H c); [now left | exact Heq].
  - apply IH. intros c' Hin. apply H. now right.
Qed.

(** X24: given a first argument that names no subcommand, [main] runs
    nothing and returns normally: it reports neither the unknown name nor
    the usage. *)
Theorem main_unknown_command_is_silent :
  forall World (cmds : list (Main.Subcommand World)) program name args w,
    (forall c, In c cmds -> Main.Name c <> name) ->
    Main.main cmds (program :: name :: args) w = Main.returned w.
Proof. intros. simpl. now apply loop_unknown. Qed.

Lemma main_unknown_command_is_silent_witness :
  (forall c, In c Main.someCommands -> Main.Name c <> "status"%string) /\
  Main.main Main.someCommands ["git-bundle-server"; "status"]%string []
  = Main.returned [].
Proof.
  assert (H : forall c, In c Main.someCommands ->
                        Main.Name c <> "status"%string).
  { intros c [<- | [<- | []]]; discriminate. }
  split; [exact H |].
  apply (main_unknown_command_is_silent (list string) Main.someCommands
           "git-bundle-server" "status" [] [] H).
Defined.

(** X25: when the names of the subcommands are distinct, [main] runs the
    one the first argument names, once, on the arguments after it, and
    nothing else; it ends with "Failed with error: " and the message if that
    subcommand returns an error, and returns otherwise. *)
Theorem main_runs_the_named_command :
  forall World (cmds : list (Main.Subcommand World)) c program args w,
    List.NoDup (map Main.Name cmds) ->
    In c cmds ->
    Main.main cmds (program :: Main.Name c :: args) w
    = match Main.Run c args w with
      | (Some err, w') =>
          Main.log_Fatal
            (String.append "Failed with error: " (error_Error err)) w'
      | (None, w') => Main.returned w'
      end.
Proof.
  intros World cmds c program args w. simpl.
  induction cmds as [| c0 rest IH]; intros Hnodup Hin; [destruct Hin |].
  simpl in Hnodup. apply List.NoDup_cons_iff in Hnodup as [Hnotin Hnodup].
  simpl. destruct Hin as [-> | Hin].
  - rewrite String.eqb_refl.
    destruct (Main.Run c args w) as [[err |] w']; [reflexivity |].
    apply loop_unknown. intros c' Hin' Heq. apply Hnotin.
    rewrite <- Heq. now apply in_map.
  - destruct (String.eqb_spec (Main.Name c0) (Main.Name c)) as [Heq | _].
    + exfalso. apply Hnotin. rewrite Heq. now apply in_map.
    + now apply IH.
Qed.

Lemma main_runs_the_named_command_witness :
  List.NoDup (map Main.Name Main.someCommands) /\
  Main.main Main.someCommands ["git-bundle-server"; "stop"; "--force"]%string
    []
  = Main.log_Fatal "Failed with error: not running" ["stop"%string].
Proof.
  assert (H : List.NoDup (map Main.Name Main.someCommands)).
  { simpl. repeat constructor; simpl; intuition discriminate. }
  split; [exact H |].
  apply (main_runs_the_named_command (list string) Main.someCommands
           (Main.mkSubcommand "stop"
              (fun args w =>
                 (Some (rawError "not running"), w ++ ["stop"%string])))
           "git-bundle-server" ["--force"%string] [] H).
  right. left. reflexivity.
Defined.
